(** * Chef Claude front end

    A shallow embedding of the two source files of the repository:

    - [app/api/token/route.ts]: the [GET] handler that mints a LiveKit
      access token;
    - the voice-assistant page: the [useTimers] hook, [formatTimeLeft],
      [toggleGroceryItem] and the [handleData] listener that turns inbound
      data messages into UI state.

    JavaScript values are embedded as the inductive type [JS.value]; the
    message handler runs in a state-and-exception monad, so that a
    [TypeError] raised inside the [try] block keeps the state reached so
    far, as the [catch] clause of the source does. *)

From Stdlib Require Import ZArith String Ascii List Lia DecimalString DecimalPos DecimalZ.
From stdpp Require Import base list strings relations.

Set Warnings "-register-all".

Local Open Scope string_scope.
Local Open Scope list_scope.
Local Open Scope Z_scope.

(** ** JavaScript values *)

Module JS.

(** Numbers.  The page only ever computes with millisecond time stamps
    ([Date.now()]), whole seconds and counters, so the finite numbers are
    modelled by the integers, on which the binary64 arithmetic of the
    source is exact below [2^53].  [NaN] is kept: it is what [ToNumber]
    yields on [undefined], and it flows into [endsAt] when a [set_timer]
    message carries no numeric [duration_seconds]. *)
Inductive number : Type :=
| Fin (z : Z)
| NaN.

(** A value: [undefined], or what [JSON.parse] can return.  An object is the
    sequence of its property definitions, in source order. *)
Inductive value : Type :=
| VUndefined
| VNull
| VBool (b : bool)
| VNum (n : number)
| VStr (s : string)
| VArr (elems : list value)
| VObj (props : list (string * value)).

(** [a + b], [a - b], [a * b] on numbers. *)
Definition num_add (a b : number) : number :=
  match a, b with
  | Fin x, Fin y => Fin (x + y)
  | _, _ => NaN
  end.

Definition num_sub (a b : number) : number :=
  match a, b with
  | Fin x, Fin y => Fin (x - y)
  | _, _ => NaN
  end.

Definition num_mul (a b : number) : number :=
  match a, b with
  | Fin x, Fin y => Fin (x * y)
  | _, _ => NaN
  end.

(** [a % b]: the remainder takes the sign of the dividend; [x % 0] is [NaN]. *)
Definition num_rem (a b : number) : number :=
  match a, b with
  | Fin x, Fin y => if decide (y = 0) then NaN else Fin (Z.rem x y)
  | _, _ => NaN
  end.

(** [a <= b] and [a > b]: every comparison with [NaN] is false. *)
Definition num_le (a b : number) : bool :=
  match a, b with
  | Fin x, Fin y => bool_decide (x ≤ y)
  | _, _ => false
  end.

Definition num_gt (a b : number) : bool :=
  match a, b with
  | Fin x, Fin y => bool_decide (y < x)
  | _, _ => false
  end.

(** [Math.ceil(x / d)] and [Math.floor(x / d)] for a positive integer
    constant [d]: the quotient itself need not be an integer, so the
    division and the rounding are taken together. *)
Definition Math_ceil_div (x : number) (d : Z) : number :=
  match x with
  | Fin a => Fin (- ((- a) / d))
  | NaN => NaN
  end.

Definition Math_floor_div (x : number) (d : Z) : number :=
  match x with
  | Fin a => Fin (a / d)
  | NaN => NaN
  end.

(** [Math.max(a, b)]: [NaN] as soon as one argument is. *)
Definition Math_max (a b : number) : number :=
  match a, b with
  | Fin x, Fin y => Fin (Z.max x y)
  | _, _ => NaN
  end.

(** [Number.prototype.toString()] on an integer (decimal digits, below
    the [1e21] threshold of the exponent notation) and on [NaN]. *)
Definition Number_toString (n : number) : string :=
  match n with
  | Fin z => NilZero.string_of_int (Z.to_int z)
  | NaN => "NaN"
  end.

(** [String.prototype.padStart(targetLength, padString)]. *)
Fixpoint pad_fill (k : nat) (cur pad : string) : string :=
  match k with
  | O => ""
  | S k' =>
      match cur with
      | String c r => String c (pad_fill k' r pad)
      | EmptyString =>
          match pad with
          | String c r => String c (pad_fill k' r pad)
          | EmptyString => ""
          end
      end
  end.

Definition padStart (targetLength : nat) (padString s : string) : string :=
  if decide (targetLength ≤ String.length s)%nat then s
  else pad_fill (targetLength - String.length s) padString padString +:+ s.

(** [String.prototype.slice(from, to)] for [0 <= from <= to]. *)
Definition slice (from to : nat) (s : string) : string :=
  substring from (to - from) s.

(** Truthiness ([ToBoolean]) and the [||] operator. *)
Definition truthy (v : value) : bool :=
  match v with
  | VUndefined | VNull => false
  | VBool b => b
  | VNum (Fin z) => negb (bool_decide (z = 0))
  | VNum NaN => false
  | VStr s => negb (bool_decide (s = ""))
  | VArr _ | VObj _ => true
  end.

Definition or (a b : value) : value := if truthy a then a else b.

(** [v === "lit"] against a string literal: true on that very string only. *)
Definition strict_eq_str (v : value) (lit : string) : bool :=
  match v with
  | VStr s => bool_decide (s = lit)
  | _ => false
  end.

(** [v !== "lit"]. *)
Definition strict_ne_str (v : value) (lit : string) : bool :=
  negb (strict_eq_str v lit).

(** The own property [k] of an object: the last definition of [k] wins, as
    in an object literal or a [JSON.parse] result. *)
Fixpoint last_definition (props : list (string * value)) (k : string)
    : option value :=
  match props with
  | [] => None
  | (k', v) :: rest =>
      match last_definition rest k with
      | Some found => Some found
      | None => if decide (k' = k) then Some v else None
      end
  end.

Definition own_property (props : list (string * value)) (k : string) : value :=
  match last_definition props k with
  | Some v => v
  | None => VUndefined
  end.

(** Property read [v.k] for the keys the page uses ([type], [label],
    [items], ...), none of which is defined on a built-in prototype:
    [None] is the [TypeError] of a read on [undefined] or [null]; a
    primitive or an array has no such property. *)
Definition get_property (v : value) (k : string) : option value :=
  match v with
  | VUndefined | VNull => None
  | VObj props => Some (own_property props k)
  | _ => Some VUndefined
  end.

End JS.

Import JS.

(** ** Timers: the data of [useTimers] and [formatTimeLeft] *)

Record Timer : Type := mkTimer {
  id : Z;
  label : value;
  endsAt : number;
  duration : value
}.

(** [formatTimeLeft(endsAt)], with the reading of [Date.now()] as [now]. *)
Definition formatTimeLeft (now : Z) (endsAt : number) : string :=
  let left := Math_max (Fin 0) (Math_ceil_div (num_sub endsAt (Fin now)) 1000) in
  let m := Math_floor_div left 60 in
  let s := num_rem left (Fin 60) in
  Number_toString m +:+ ":" +:+ padStart 2 "0" (Number_toString s).

(** The text [m:ss] of a number of whole seconds. *)
Definition digit (d : Z) : ascii := ascii_of_nat (48 + Z.to_nat d).

Definition two_digits (s : Z) : string :=
  String (digit (s / 10)) (String (digit (s mod 10)) "").

Definition clock_text (left : Z) : string :=
  Number_toString (Fin (left / 60)) +:+ ":" +:+ two_digits (left mod 60).

(** ** The platform

    What the page and the route call but do not define: the ECMAScript
    built-ins and the LiveKit server SDK.  They are an interface here; the
    theorems hold for every implementation of it. *)

(** The [AccessToken] object of the SDK, as the route fills it in. *)
Record VideoGrant : Type := mkGrant {
  roomJoin : bool;
  room : string;
  canPublish : bool;
  canSubscribe : bool
}.

Record AccessToken : Type := mkAccessToken {
  at_apiKey : string;
  at_apiSecret : string;
  at_identity : string;
  at_grants : list VideoGrant
}.

Class Platform : Type := {
  (** [new TextDecoder().decode(payload)]: never throws (the decoder is not
      in fatal mode). *)
  TextDecoder_decode : list Byte.byte → string;
  (** [JSON.parse(text)]; [None] is its [SyntaxError]. *)
  JSON_parse : string → option value;
  (** [ToNumber] on a string, and on an array or object (through
      [ToPrimitive]). *)
  StringToNumber : string → number;
  ObjectToNumber : value → number;
  (** [at.toJwt()]: the signed token of an [AccessToken]. *)
  toJwt : AccessToken → string
}.

(** [ToNumber(v)], the coercion applied by [durationSeconds * 1000]. *)
Definition ToNumber `{Platform} (v : value) : number :=
  match v with
  | VUndefined => NaN
  | VNull => Fin 0
  | VBool b => if b then Fin 1 else Fin 0
  | VNum n => n
  | VStr s => StringToNumber s
  | VArr _ | VObj _ => ObjectToNumber v
  end.

(** ** The [useTimers] hook *)

(** The state of the hook: the [timers] list and the [nextId] ref. *)
Record Timers : Type := mkTimers {
  timers : list Timer;
  nextId : Z
}.

Definition Timers_init : Timers := {| timers := []; nextId := 0 |}.

(** [addTimer(label, durationSeconds)]: the updater appends a timer whose id
    is [nextId.current++]. *)
Definition addTimer `{Platform} (now : Z) (label durationSeconds : value)
    (s : Timers) : Timers :=
  {| timers :=
       timers s ++
       [ {| id := nextId s;
            label := label;
            endsAt := num_add (Fin now) (num_mul (ToNumber durationSeconds) (Fin 1000));
            duration := durationSeconds |} ];
     nextId := nextId s + 1 |}.

(** [dismissTimer(id)]. *)
Definition dismissTimer (i : Z) (s : Timers) : Timers :=
  {| timers := filter (λ t, id t ≠ i) (timers s);
     nextId := nextId s |}.

(** The effect that checks for expired timers.  It closes over the rendered
    list [shown]; it returns the labels passed to [playAlarm], in order, and
    the updater handed to [setTimers], if any. *)
Definition expired (now : Z) (shown : list Timer) : list Timer :=
  filter (λ t, num_le (endsAt t) (Fin now) = true) shown.

Definition expiryEffect (now : Z) (shown : list Timer)
    : list value * option (list Timer → list Timer) :=
  if decide (0 < length (expired now shown))%nat then
    (label <$> expired now shown,
     Some (λ prev, filter (λ t, num_gt (endsAt t) (Fin now) = true) prev))
  else ([], None).

(** One run of the check on the hook state: the updater is applied to the
    list the effect was rendered with. *)
Definition expiryCheck (now : Z) (s : Timers) : list value * Timers :=
  match expiryEffect now (timers s) with
  | (alarms, Some upd) => (alarms, {| timers := upd (timers s); nextId := nextId s |})
  | (alarms, None) => (alarms, s)
  end.

(** ** The state of [VoiceAssistantUI] *)

Record Recipe : Type := mkRecipe {
  title : value;
  servings : value;
  prepTimeMinutes : value;
  ingredients : value;
  steps : value;
  currentStep : value;
  tutorialUrl : value;
  tutorialTitle : value;
  tutorialSource : value;
  ogImage : value;
  ogTitle : value;
  ogDescription : value
}.

Record GroceryItem : Type := mkGroceryItem {
  g_recipe : value;
  g_ingredients : value;
  g_checked : value
}.

Record UIState : Type := mkUI {
  ui_timers : Timers;
  cameraRequest : bool;
  recipe : option Recipe;
  dishSuggestions : value;
  groceryList : list GroceryItem;
  groceryListOpen : bool
}.

Definition UIState_init : UIState :=
  {| ui_timers := Timers_init;
     cameraRequest := false;
     recipe := None;
     dishSuggestions := VArr [];
     groceryList := [];
     groceryListOpen := false |}.

(** ** The [try] block: state and exceptions

    A computation of the listener reads and updates the UI state and either
    completes or throws.  A throw keeps the state reached so far: the
    [catch] clause of [handleData] swallows the exception and undoes
    nothing. *)

Inductive completion (A : Type) : Type :=
| Normal (a : A)
| Throw.
Arguments Normal {A} a.
Arguments Throw {A}.

Definition Handler (A : Type) : Type := UIState → UIState * completion A.

#[global] Instance Handler_ret : MRet Handler :=
  λ A a st, (st, Normal a).

#[global] Instance Handler_bind : MBind Handler :=
  λ A B f m st,
    match m st with
    | (st', Normal a) => f a st'
    | (st', Throw) => (st', Throw)
    end.

Definition throw {A : Type} : Handler A := λ st, (st, Throw).

(** [try { body } catch { }]. *)
Definition try_catch (body : Handler unit) (st : UIState) : UIState :=
  (body st).1.

(** The state setters of the component. *)
Definition setTimers (f : Timers → Timers) : Handler unit :=
  λ st, ({| ui_timers := f (ui_timers st);
            cameraRequest := cameraRequest st;
            recipe := recipe st;
            dishSuggestions := dishSuggestions st;
            groceryList := groceryList st;
            groceryListOpen := groceryListOpen st |}, Normal ()).

Definition setCameraRequest (b : bool) : Handler unit :=
  λ st, ({| ui_timers := ui_timers st;
            cameraRequest := b;
            recipe := recipe st;
            dishSuggestions := dishSuggestions st;
            groceryList := groceryList st;
            groceryListOpen := groceryListOpen st |}, Normal ()).

Definition setRecipe (f : option Recipe → option Recipe) : Handler unit :=
  λ st, ({| ui_timers := ui_timers st;
            cameraRequest := cameraRequest st;
            recipe := f (recipe st);
            dishSuggestions := dishSuggestions st;
            groceryList := groceryList st;
            groceryListOpen := groceryListOpen st |}, Normal ()).

Definition setDishSuggestions (v : value) : Handler unit :=
  λ st, ({| ui_timers := ui_timers st;
            cameraRequest := cameraRequest st;
            recipe := recipe st;
            dishSuggestions := v;
            groceryList := groceryList st;
            groceryListOpen := groceryListOpen st |}, Normal ()).

Definition setGroceryList (f : list GroceryItem → list GroceryItem) : Handler unit :=
  λ st, ({| ui_timers := ui_timers st;
            cameraRequest := cameraRequest st;
            recipe := recipe st;
            dishSuggestions := dishSuggestions st;
            groceryList := f (groceryList st);
            groceryListOpen := groceryListOpen st |}, Normal ()).

Definition setGroceryListOpen (b : bool) : Handler unit :=
  λ st, ({| ui_timers := ui_timers st;
            cameraRequest := cameraRequest st;
            recipe := recipe st;
            dishSuggestions := dishSuggestions st;
            groceryList := groceryList st;
            groceryListOpen := b |}, Normal ()).

(** [v.k] inside the block. *)
Definition get (v : value) (k : string) : Handler value :=
  match get_property v k with
  | Some x => mret x
  | None => throw
  end.

(** [msg.type === "lit"]. *)
Definition type_is (msg : value) (lit : string) : Handler bool :=
  t ← get msg "type"; mret (strict_eq_str t lit).

(** [topic === "lit"], for [topic : string | undefined]. *)
Definition topic_is (topic : option string) (lit : string) : bool :=
  bool_decide (topic = Some lit).

(** [a && b] and [a || b] on conditions: [b] is evaluated only if needed. *)
Definition andM (a : bool) (b : Handler bool) : Handler bool :=
  if a then b else mret false.

Definition orM (a : Handler bool) (b : Handler bool) : Handler bool :=
  x ← a; if (x : bool) then mret true else b.

(** [arr.map(f)]: a [TypeError] when [arr] is not an array (nothing else
    that [JSON.parse] returns has a callable [map]). *)
Definition array_map {B : Type} (f : value → Handler B) (arr : value)
    : Handler (list B) :=
  match arr with
  | VArr elems => mapM f elems
  | _ => throw
  end.

(** The callback of [handleData] on the grocery items. *)
Definition groceryItem_of (item : value) : Handler GroceryItem :=
  r ← get item "recipe";
  i ← get item "ingredients";
  c ← get item "checked";
  mret {| g_recipe := or r (VStr "");
          g_ingredients := or i (VArr []);
          g_checked := or c (VArr []) |}.

(** [msg.k] inside a state updater.  The updaters of [handleData] run after
    [msg.type] has been read, so [msg] is neither [undefined] nor [null]
    there and the read cannot throw. *)
Definition read (v : value) (k : string) : value :=
  match get_property v k with
  | Some x => x
  | None => VUndefined
  end.

(** ** [handleData]: the listener for data messages *)

(** The branch [topic === "recipe"]. *)
Definition on_recipe (msg : value) : Handler unit :=
  is_start ← type_is msg "recipe_start";
  if (is_start : bool) then
    ti ← get msg "title";
    se ← get msg "servings";
    pt ← get msg "prep_time_minutes";
    ing ← get msg "ingredients";
    stp ← get msg "steps";
    _ ← setRecipe (λ _, Some
           {| title := ti;
              servings := or se (VNum (Fin 1));
              prepTimeMinutes := or pt (VNum (Fin 0));
              ingredients := or ing (VArr []);
              steps := or stp (VArr []);
              currentStep := VUndefined;
              tutorialUrl := VUndefined;
              tutorialTitle := VUndefined;
              tutorialSource := VUndefined;
              ogImage := VUndefined;
              ogTitle := VUndefined;
              ogDescription := VUndefined |});
    setDishSuggestions (VArr [])
  else
  is_refresh ← type_is msg "recipe_refresh";
  if (is_refresh : bool) then
    setRecipe (λ prev,
      match prev with
      | Some p => Some
           {| title := or (read msg "title") (title p);
              servings := servings p;
              prepTimeMinutes := prepTimeMinutes p;
              ingredients := or (read msg "ingredients") (ingredients p);
              steps := or (read msg "steps") (steps p);
              currentStep := currentStep p;
              tutorialUrl := tutorialUrl p;
              tutorialTitle := tutorialTitle p;
              tutorialSource := tutorialSource p;
              ogImage := ogImage p;
              ogTitle := ogTitle p;
              ogDescription := ogDescription p |}
      | None => prev
      end)
  else
  is_step ← type_is msg "step_update";
  if (is_step : bool) then
    setRecipe (λ prev,
      match prev with
      | Some p => Some
           {| title := title p;
              servings := servings p;
              prepTimeMinutes := prepTimeMinutes p;
              ingredients := ingredients p;
              steps := steps p;
              currentStep := read msg "step_number";
              tutorialUrl := tutorialUrl p;
              tutorialTitle := tutorialTitle p;
              tutorialSource := tutorialSource p;
              ogImage := ogImage p;
              ogTitle := ogTitle p;
              ogDescription := ogDescription p |}
      | None => prev
      end)
  else
  is_update ← type_is msg "recipe_update";
  if (is_update : bool) then
    setRecipe (λ prev,
      match prev with
      | Some p => Some
           {| title := title p;
              servings := servings p;
              prepTimeMinutes := prepTimeMinutes p;
              ingredients := ingredients p;
              steps := steps p;
              currentStep := currentStep p;
              tutorialUrl := read msg "tutorial_url";
              tutorialTitle := read msg "tutorial_title";
              tutorialSource := read msg "tutorial_source";
              ogImage := read msg "og_image";
              ogTitle := read msg "og_title";
              ogDescription := read msg "og_description" |}
      | None => prev
      end)
  else
  is_end ← type_is msg "recipe_end";
  if (is_end : bool) then setRecipe (λ _, None)
  else mret ().

(** The branch [topic === "grocery_list"]. *)
Definition on_grocery (msg : value) : Handler unit :=
  replace ← orM (type_is msg "grocery_list_update") (type_is msg "grocery_list_show");
  _ ← (if (replace : bool) then
         items ← get msg "items";
         l ← array_map groceryItem_of (or items (VArr []));
         setGroceryList (λ _, l)
       else mret ());
  is_show ← type_is msg "grocery_list_show";
  if (is_show : bool) then setGroceryListOpen true
  else mret ().

(** The chain of tests on [topic] and [msg.type]. *)
Definition on_message `{Platform} (now : Z) (topic : option string) (msg : value)
    : Handler unit :=
  is_timer ← andM (topic_is topic "timer") (type_is msg "set_timer");
  if (is_timer : bool) then
    l ← get msg "label";
    d ← get msg "duration_seconds";
    setTimers (addTimer now l d)
  else
  is_camera ← andM (topic_is topic "camera_request") (type_is msg "request_camera");
  if (is_camera : bool) then setCameraRequest true
  else
  if topic_is topic "recipe" then on_recipe msg
  else
  is_sugg ← andM (topic_is topic "suggestions") (type_is msg "dish_suggestions");
  if (is_sugg : bool) then
    o ← get msg "options";
    setDishSuggestions (or o (VArr []))
  else
  if topic_is topic "grocery_list" then on_grocery msg
  else mret ().

(** [JSON.parse] inside the block: a [SyntaxError] is a throw. *)
Definition parse `{Platform} (text : string) : Handler value :=
  match JSON_parse text with
  | Some v => mret v
  | None => throw
  end.

(** [handleData(payload, _participant, _kind, topic)]; [now] is the reading
    of [Date.now()] taken by the [addTimer] updater. *)
Definition handleData `{Platform} (now : Z) (payload : list Byte.byte)
    (topic : option string) : UIState → UIState :=
  try_catch (msg ← parse (TextDecoder_decode payload); on_message now topic msg).

(** ** [toggleGroceryItem] *)

(** [checked.includes(ingredient)] for a string [ingredient]. *)
Definition includes (checked : list value) (ingredient : string) : bool :=
  existsb (λ c, strict_eq_str c ingredient) checked.

(** The updater of [toggleGroceryItem(recipeIdx, ingredient)].  [None]
    stands for the runs outside the declared type [GroceryItem[]]: an index
    with no group, or a [checked] that is not an array. *)
Definition toggleGroceryItem (recipeIdx : nat) (ingredient : string)
    (prev : list GroceryItem) : option (list GroceryItem) :=
  match prev !! recipeIdx with
  | None => None
  | Some group =>
      match g_checked group with
      | VArr checked =>
          let checked' :=
            if includes checked ingredient
            then List.filter (λ c, strict_ne_str c ingredient) checked
            else checked ++ [VStr ingredient] in
          Some (<[recipeIdx :=
                   {| g_recipe := g_recipe group;
                      g_ingredients := g_ingredients group;
                      g_checked := VArr checked' |}]> prev)
      | _ => None
      end
  end.

(** ** The token route: [GET] of [app/api/token/route.ts] *)

Module TokenRoute.

(** A [NextResponse.json(body, { status })]. *)
Record Response : Type := mkResponse {
  body : list (string * string);
  status : Z
}.

(** [process.env]: each variable is a string or [undefined]. *)
Record Env : Type := mkEnv {
  LIVEKIT_API_KEY : option string;
  LIVEKIT_API_SECRET : option string;
  LIVEKIT_URL : option string
}.

(** [!x] for [x : string | undefined]. *)
Definition not_set (x : option string) : bool :=
  match x with
  | None => true
  | Some s => bool_decide (s = "")
  end.

(** The value of a variable once the test has narrowed its type to
    [string]. *)
Definition narrowed (x : option string) : string :=
  match x with
  | Some s => s
  | None => ""
  end.

(** The handler.  [now] is [Date.now()] and [rnd36] is
    [Math.random().toString(36)].  The second component is the
    [AccessToken] that was built and signed, if any. *)
Definition GET `{Platform} (env : Env) (now : Z) (rnd36 : string)
    : Response * option AccessToken :=
  let apiKey := LIVEKIT_API_KEY env in
  let apiSecret := LIVEKIT_API_SECRET env in
  let livekitUrl := LIVEKIT_URL env in
  if not_set apiKey || not_set apiSecret || not_set livekitUrl then
    ({| body := [("error", "LiveKit credentials not configured")];
        status := 500 |}, None)
  else
    let roomName := "chef-claude-" +:+ Number_toString (Fin now) in
    let participantName := "user-" +:+ slice 2 7 rnd36 in
    let at_ := {| at_apiKey := narrowed apiKey;
                 at_apiSecret := narrowed apiSecret;
                 at_identity := participantName;
                 at_grants := [ {| roomJoin := true;
                                   room := roomName;
                                   canPublish := true;
                                   canSubscribe := true |} ] |} in
    let token := toJwt at_ in
    ({| body := [("token", token); ("url", narrowed livekitUrl)];
        status := 200 |}, Some at_).

End TokenRoute.

(** ** A reference platform

    An executable implementation of the interface, to run the model on
    concrete payloads.  [JSON_text.parse] reads the JSON texts whose numbers
    are integer literals and whose strings use the two-character escapes
    only; on a text outside this fragment it answers [None] without this
    meaning that the text is not JSON.  No theorem below depends on it: it
    only supplies the concrete inputs. *)

Module JSON_text.

Definition quote : ascii := "034"%char.
Definition backslash : ascii := "092"%char.

Definition is_ws (c : ascii) : bool :=
  bool_decide (c = " "%char) || bool_decide (c = "009"%char)
  || bool_decide (c = "010"%char) || bool_decide (c = "013"%char).

Fixpoint skip_ws (s : string) : string :=
  match s with
  | String c r => if is_ws c then skip_ws r else s
  | EmptyString => s
  end.

Definition digit_val (c : ascii) : option Z :=
  let n := Z.of_nat (nat_of_ascii c) in
  if bool_decide (48 ≤ n ≤ 57) then Some (n - 48) else None.

Fixpoint digits (acc : Z) (s : string) : Z * string :=
  match s with
  | String c r =>
      match digit_val c with
      | Some d => digits (10 * acc + d) r
      | None => (acc, s)
      end
  | EmptyString => (acc, s)
  end.

(** After the digits of an integer: a fraction or an exponent is outside
    the fragment. *)
Definition integer_ends (s : string) : bool :=
  match s with
  | String c _ =>
      negb (bool_decide (c = "."%char) || bool_decide (c = "e"%char)
            || bool_decide (c = "E"%char))
  | EmptyString => true
  end.

(** An unsigned integer literal: no leading zero before another digit. *)
Definition unsigned (s : string) : option (Z * string) :=
  match s with
  | String c r =>
      match digit_val c with
      | Some 0 =>
          match r with
          | String c' _ =>
              match digit_val c' with
              | Some _ => None
              | None => if integer_ends r then Some (0, r) else None
              end
          | EmptyString => Some (0, r)
          end
      | Some d =>
          let '(n, rest) := digits d r in
          if integer_ends rest then Some (n, rest) else None
      | None => None
      end
  | EmptyString => None
  end.

Definition unescape (c : ascii) : option ascii :=
  if bool_decide (c = quote) then Some quote
  else if bool_decide (c = backslash) then Some backslash
  else if bool_decide (c = "/"%char) then Some "/"%char
  else if bool_decide (c = "n"%char) then Some "010"%char
  else if bool_decide (c = "t"%char) then Some "009"%char
  else if bool_decide (c = "r"%char) then Some "013"%char
  else if bool_decide (c = "b"%char) then Some "008"%char
  else if bool_decide (c = "f"%char) then Some "012"%char
  else None.

(** The characters of a string literal, after its opening quote. *)
Fixpoint chars (s : string) : option (string * string) :=
  match s with
  | EmptyString => None
  | String c r =>
      if bool_decide (c = quote) then Some ("", r)
      else if bool_decide (c = backslash) then
        match r with
        | String e r' =>
            match unescape e, chars r' with
            | Some ch, Some (str, rest) => Some (String ch str, rest)
            | _, _ => None
            end
        | EmptyString => None
        end
      else if bool_decide (nat_of_ascii c < 32)%nat then None
      else
        match chars r with
        | Some (str, rest) => Some (String c str, rest)
        | None => None
        end
  end.

(** A keyword: [s] must start with [kw]. *)
Fixpoint keyword (kw s : string) : option string :=
  match kw, s with
  | EmptyString, _ => Some s
  | String k kw', String c r => if bool_decide (k = c) then keyword kw' r else None
  | String _ _, EmptyString => None
  end.

Fixpoint parse_value (fuel : nat) (s : string) : option (value * string) :=
  match fuel with
  | O => None
  | S fuel' =>
      match skip_ws s with
      | EmptyString => None
      | String c r =>
          if bool_decide (c = "n"%char) then (λ rest, (VNull, rest)) <$> keyword "ull" r
          else if bool_decide (c = "t"%char) then (λ rest, (VBool true, rest)) <$> keyword "rue" r
          else if bool_decide (c = "f"%char) then (λ rest, (VBool false, rest)) <$> keyword "alse" r
          else if bool_decide (c = quote) then (λ p, (VStr p.1, p.2)) <$> chars r
          else if bool_decide (c = "-"%char) then (λ p, (VNum (Fin (- p.1)), p.2)) <$> unsigned r
          else if bool_decide (c = "["%char) then
            match skip_ws r with
            | String c' r' =>
                if bool_decide (c' = "]"%char) then Some (VArr [], r')
                else (λ p, (VArr p.1, p.2)) <$> parse_elements fuel' r
            | EmptyString => None
            end
          else if bool_decide (c = "{"%char) then
            match skip_ws r with
            | String c' r' =>
                if bool_decide (c' = "}"%char) then Some (VObj [], r')
                else (λ p, (VObj p.1, p.2)) <$> parse_members fuel' r
            | EmptyString => None
            end
          else (λ p, (VNum (Fin p.1), p.2)) <$> unsigned (String c r)
      end
  end
with parse_elements (fuel : nat) (s : string) : option (list value * string) :=
  match fuel with
  | O => None
  | S fuel' =>
      match parse_value fuel' s with
      | Some (v, rest) =>
          match skip_ws rest with
          | String c r =>
              if bool_decide (c = ","%char) then
                (λ p, (v :: p.1, p.2)) <$> parse_elements fuel' r
              else if bool_decide (c = "]"%char) then Some ([v], r)
              else None
          | EmptyString => None
          end
      | None => None
      end
  end
with parse_members (fuel : nat) (s : string) : option (list (string * value) * string) :=
  match fuel with
  | O => None
  | S fuel' =>
      match skip_ws s with
      | String q r =>
          if bool_decide (q = quote) then
            match chars r with
            | Some (k, rest) =>
                match skip_ws rest with
                | String colon r1 =>
                    if bool_decide (colon = ":"%char) then
                      match parse_value fuel' r1 with
                      | Some (v, rest') =>
                          match skip_ws rest' with
                          | String c r2 =>
                              if bool_decide (c = ","%char) then
                                (λ p, ((k, v) :: p.1, p.2)) <$> parse_members fuel' r2
                              else if bool_decide (c = "}"%char) then Some ([(k, v)], r2)
                              else None
                          | EmptyString => None
                          end
                      | None => None
                      end
                    else None
                | EmptyString => None
                end
            | None => None
            end
          else None
      | EmptyString => None
      end
  end.

(** A whole text: one value, then only white space. *)
Definition parse (text : string) : option value :=
  match parse_value (S (String.length text)) text with
  | Some (v, rest) =>
      match skip_ws rest with
      | EmptyString => Some v
      | String _ _ => None
      end
  | None => None
  end.

(** A text written with ['] for the double quote. *)
Fixpoint dq (s : string) : string :=
  match s with
  | String c r => String (if bool_decide (c = "'"%char) then quote else c) (dq r)
  | EmptyString => EmptyString
  end.

End JSON_text.

(** [StringToNumber] on the empty string and on decimal integer literals;
    [NaN] stands for every other string here. *)
Definition reference_StringToNumber (s : string) : number :=
  match s with
  | EmptyString => Fin 0
  | String c r =>
      let signed :=
        if bool_decide (c = "-"%char) then (λ p : Z * string, (- p.1, p.2)) <$> JSON_text.unsigned r
        else JSON_text.unsigned s in
      match signed with
      | Some (n, EmptyString) => Fin n
      | _ => NaN
      end
  end.

(** [ToNumber] on the objects [JSON.parse] returns: an array goes through
    its [join], a plain object through ["[object Object]"]. *)
Fixpoint reference_ObjectToNumber (v : value) : number :=
  match v with
  | VArr [] => Fin 0
  | VArr [x] =>
      match x with
      | VUndefined | VNull => Fin 0
      | VNum n => n
      | VStr s => reference_StringToNumber s
      | VArr _ => reference_ObjectToNumber x
      | VBool _ | VObj _ => NaN
      end
  | _ => NaN
  end.

(** The reference platform.  Its [toJwt] is a stand-in that only records
    what was signed: the real one is the HMAC signature of the SDK. *)
Definition reference_platform : Platform :=
  {| TextDecoder_decode := string_of_list_byte;
     JSON_parse := JSON_text.parse;
     StringToNumber := reference_StringToNumber;
     ObjectToNumber := reference_ObjectToNumber;
     toJwt := λ a, "jwt:" +:+ at_apiKey a +:+ ":" +:+ at_identity a |}.

(** The bytes of a text written with ['] for the double quote. *)
Definition payload_of (s : string) : list Byte.byte :=
  list_byte_of_string (JSON_text.dq s).

(** ** Vocabulary of the properties *)

(** The runs of the hook: each step is a call of [addTimer], a call of
    [dismissTimer] or a run of the expiry check. *)
Inductive Timers_step `{Platform} : Timers → Timers → Prop :=
| step_add (now : Z) (label durationSeconds : value) (s : Timers) :
    Timers_step s (addTimer now label durationSeconds s)
| step_dismiss (i : Z) (s : Timers) :
    Timers_step s (dismissTimer i s)
| step_expiry (now : Z) (s : Timers) :
    Timers_step s (expiryCheck now s).2.

Definition Timers_reachable `{Platform} (s : Timers) : Prop :=
  rtc Timers_step Timers_init s.

(** The ids of the listed timers are pairwise distinct, and all below the
    counter. *)
Definition distinct_ids (s : Timers) : Prop :=
  NoDup (id <$> timers s).

Definition ids_below_counter (s : Timers) : Prop :=
  ∀ t, t ∈ timers s → id t < nextId s.

(** An environment variable that is missing or empty. *)
Definition missing_or_empty (x : option string) : Prop :=
  x = None ∨ x = Some "".

(** The error response of the token route. *)
Definition credentials_error : TokenRoute.Response :=
  {| TokenRoute.body := [("error", "LiveKit credentials not configured")];
     TokenRoute.status := 500 |}.


Definition one_of (ty : value) (lits : list string) : bool :=
  existsb (strict_eq_str ty) lits.

Definition recipe_types : list string :=
  ["recipe_start"; "recipe_refresh"; "step_update"; "recipe_update"; "recipe_end"].

Definition grocery_types : list string :=
  ["grocery_list_update"; "grocery_list_show"].


(** [undefined] and [null], on which a property read throws. *)
Definition nullish (v : value) : bool :=
  match v with
  | VUndefined | VNull => true
  | _ => false
  end.

(** A grocery item with the defaults for its absent fields. *)
Definition groceryItem_defaults (item : value) : GroceryItem :=
  {| g_recipe := or (read item "recipe") (VStr "");
     g_ingredients := or (read item "ingredients") (VArr []);
     g_checked := or (read item "checked") (VArr []) |}.

(** The grocery list a message carries: [None] when [items] is neither
    absent, falsy nor an array, or when one of its elements is [null]. *)
Definition grocery_items (msg : value) : option (list GroceryItem) :=
  match or (read msg "items") (VArr []) with
  | VArr elems =>
      if forallb (λ item, negb (nullish item)) elems
      then Some (groceryItem_defaults <$> elems)
      else None
  | _ => None
  end.

(** ** Sample states and messages *)

(** A state with two suggestions on display. *)
Definition suggesting : UIState :=
  {| ui_timers := Timers_init;
     cameraRequest := false;
     recipe := None;
     dishSuggestions :=
       VArr [VObj [("title", VStr "Soup"); ("description", VStr "warm")];
             VObj [("title", VStr "Salad"); ("description", VStr "cold")]];
     groceryList := [];
     groceryListOpen := false |}.

(** A state with a grocery list of one group, closed. *)
Definition shopping : UIState :=
  {| ui_timers := Timers_init;
     cameraRequest := false;
     recipe := None;
     dishSuggestions := VArr [];
     groceryList :=
       [ {| g_recipe := VStr "Soup";
            g_ingredients := VArr [VStr "salt"; VStr "leek"];
            g_checked := VArr [VStr "salt"] |} ];
     groceryListOpen := false |}.

Definition start_soup : string :=
  "{'type':'recipe_start','title':'Soup','steps':['boil','serve']}".

Definition show_salad : string :=
  "{'type':'grocery_list_show','items':[{'recipe':'Salad','ingredients':['oil']}]}".

Definition show_null_item : string :=
  "{'type':'grocery_list_show','items':[null]}".

Definition step_two : string :=
  "{'type':'step_update','step_number':2}".

(** ** More of the page *)

(** *** [GroceryList]: the counters of the header *)

(** [v.length] for an array [v]; [None] stands for a value outside the
    declared type [string[]]. *)
Definition length_of (v : value) : option Z :=
  match v with
  | VArr elems => Some (Z.of_nat (length elems))
  | _ => None
  end.

(** [items.reduce((sum, g) => sum + g.field.length, 0)]. *)
Definition total_lengths (field : GroceryItem → value) (items : list GroceryItem)
    : option Z :=
  foldl (λ sum g, s ← sum; n ← length_of (field g); Some (s + n)) (Some 0) items.

Definition totalIngredients : list GroceryItem → option Z :=
  total_lengths g_ingredients.

Definition totalChecked : list GroceryItem → option Z :=
  total_lengths g_checked.

(** *** [RecipeCard]: the marks of the steps *)

(** [a < b] and [a >= b] on numbers. *)
Definition num_lt (a b : number) : bool :=
  match a, b with
  | Fin x, Fin y => bool_decide (x < y)
  | _, _ => false
  end.

Definition num_ge (a b : number) : bool :=
  match a, b with
  | Fin x, Fin y => bool_decide (y ≤ x)
  | _, _ => false
  end.

(** [recipe.currentStep === stepNum] for a number [stepNum]. *)
Definition isCurrent (currentStep : value) (stepNum : Z) : bool :=
  match currentStep with
  | VNum (Fin c) => bool_decide (c = stepNum)
  | _ => false
  end.

(** [recipe.currentStep ? stepNum < recipe.currentStep : false]: the
    comparison of a number with any value goes through [ToNumber]. *)
Definition isPast `{Platform} (currentStep : value) (stepNum : Z) : bool :=
  if truthy currentStep then num_lt (Fin stepNum) (ToNumber currentStep)
  else false.

(** The three looks of a step: [isCurrent ? ... : isPast ? ... : ...]. *)
Inductive StepMark : Type :=
| Current
| Past
| Upcoming.

Definition step_mark `{Platform} (currentStep : value) (stepNum : Z) : StepMark :=
  if isCurrent currentStep stepNum then Current
  else if isPast currentStep stepNum then Past
  else Upcoming.

(** [recipe.steps.map((step, i) => ...)] with [stepNum = i + 1]. *)
Definition step_marks `{Platform} (currentStep : value) (steps : list value)
    : list StepMark :=
  imap (λ i _, step_mark currentStep (Z.of_nat i + 1)) steps.

(** The local state of the card and the effect on [recipe.currentStep]. *)
Inductive Tab : Type :=
| Tab_ingredients
| Tab_steps.

Record CardState : Type := mkCard {
  expanded : bool;
  activeTab : Tab
}.

Definition currentStep_effect `{Platform} (currentStep : value) (c : CardState)
    : CardState :=
  if truthy currentStep && num_ge (ToNumber currentStep) (Fin 1)
  then {| expanded := true; activeTab := Tab_steps |}
  else c.

(** *** [selectDish] and the other handlers of [VoiceAssistantUI] *)

(** A call of [room.localParticipant.publishData]; [pub_message] is the
    object handed to [JSON.stringify]. *)
Record Published : Type := mkPublished {
  pub_message : value;
  pub_topic : string;
  pub_reliable : bool
}.

Definition selectDish (title : string) (st : UIState) : UIState * Published :=
  ((setDishSuggestions (VArr []) st).1,
   {| pub_message := VObj [("type", VStr "select_dish"); ("title", VStr title)];
      pub_topic := "dish_selection";
      pub_reliable := true |}).

(** The steps of the component state: a data message, or one of the
    handlers wired to the rendered controls. *)
Inductive UI_step `{Platform} : UIState → UIState → Prop :=
| ui_data (now : Z) (payload : list Byte.byte) (topic : option string) (st : UIState) :
    UI_step st (handleData now payload topic st)
| ui_dismissTimer (i : Z) (st : UIState) :
    UI_step st (setTimers (dismissTimer i) st).1
| ui_expiry (now : Z) (st : UIState) :
    UI_step st (setTimers (λ s, (expiryCheck now s).2) st).1
| ui_toggleGroceryItem (i : nat) (ingredient : string) (st : UIState)
    (l : list GroceryItem) :
    toggleGroceryItem i ingredient (groceryList st) = Some l →
    UI_step st (setGroceryList (λ _, l) st).1
| ui_selectDish (title : string) (st : UIState) :
    UI_step st (selectDish title st).1
| ui_closeRecipe (st : UIState) :
    UI_step st (setRecipe (λ _, None) st).1
| ui_clearCameraRequest (st : UIState) :
    UI_step st (setCameraRequest false st).1
| ui_groceryButton (st : UIState) :
    UI_step st (setGroceryListOpen (negb (groceryListOpen st)) st).1
| ui_closeGroceryList (st : UIState) :
    UI_step st (setGroceryListOpen false st).1.

Definition UI_reachable `{Platform} (st : UIState) : Prop :=
  rtc UI_step UIState_init st.

(** *** [Home]: the connection details *)

Module Home.

(** [await res.json()] on a response of the token route. *)
Definition json (res : TokenRoute.Response) : value :=
  VObj ((λ kv : string * string, (kv.1, VStr kv.2)) <$> TokenRoute.body res).

(** [connect]: the new [connectionDetails]. *)
Definition connect (res : TokenRoute.Response) : value := json res.

(** What [Home] shows: the start button, or the room with its [token] and
    [serverUrl] props. *)
Inductive View : Type :=
| StartCooking
| LiveKitRoom (token serverUrl : value).

Definition render (connectionDetails : value) : View :=
  if negb (truthy connectionDetails) then StartCooking
  else LiveKitRoom (read connectionDetails "token") (read connectionDetails "url").

End Home.

(** *** Vocabulary *)

(** The whole seconds [formatTimeLeft] renders for a finite deadline. *)
Definition seconds_left (now e : Z) : Z :=
  Z.max 0 (- ((- (e - now)) / 1000)).

(** A group whose check marks are distinct ingredients of the group. *)
Definition well_checked (g : GroceryItem) : Prop :=
  ∃ ings checked,
    g_ingredients g = VArr ings ∧ g_checked g = VArr checked ∧
    NoDup checked ∧ ∀ c, c ∈ checked → c ∈ ings.

(** *** More sample states and messages *)

Definition timer_eggs : Timer := mkTimer 0 (VStr "eggs") (Fin 4000) (VNum (Fin 3)).

Definition timer_rice : Timer := mkTimer 1 (VStr "rice") NaN VUndefined.

(** Two timers, the second one set without a duration. *)
Definition two_timers : Timers :=
  {| timers := [timer_eggs; timer_rice]; nextId := 2 |}.

Definition soup : Recipe :=
  {| title := VStr "Soup";
     servings := VNum (Fin 2);
     prepTimeMinutes := VNum (Fin 30);
     ingredients := VArr [VStr "leek"; VStr "salt"];
     steps := VArr [VStr "chop"; VStr "boil"; VStr "serve"];
     currentStep := VNum (Fin 1);
     tutorialUrl := VStr "https://example.org/soup";
     tutorialTitle := VStr "Soup, step by step";
     tutorialSource := VStr "example.org";
     ogImage := VStr "https://example.org/soup.png";
     ogTitle := VUndefined;
     ogDescription := VUndefined |}.

(** A state with the soup recipe on display and two timers running. *)
Definition cooking : UIState :=
  {| ui_timers := two_timers;
     cameraRequest := false;
     recipe := Some soup;
     dishSuggestions := VArr [];
     groceryList := [];
     groceryListOpen := false |}.

Definition set_eggs : string :=
  "{'type':'set_timer','label':'eggs','duration_seconds':60}".

Definition refresh_title : string :=
  "{'type':'recipe_refresh','title':'Leek soup'}".

Definition update_tutorial : string :=
  "{'type':'recipe_update','tutorial_url':'https://example.org/leek'}".

Definition kitchen_env : TokenRoute.Env :=
  TokenRoute.mkEnv (Some "key") (Some "secret") (Some "wss://kitchen").

(** * Properties *)

(** ** [formatTimeLeft] *)


(** The seconds field: below sixty, the padded decimal text is the two
    digits. *)
Lemma padStart_two_digits (s : Z) :
  0 ≤ s < 60 →
  padStart 2 "0" (Number_toString (Fin s)) = two_digits s.
Proof.
  intros [Hlo Hhi].
  rewrite <- (Z2Nat.id s Hlo).
  assert (Hn : (Z.to_nat s < 60)%nat) by lia.
  generalize dependent (Z.to_nat s). clear s Hlo Hhi. intros n Hn.
  do 60 (destruct n as [|n]; [vm_compute; reflexivity|]).
  lia.
Qed.

(** On a finite deadline the text is the clock text of the clamped
    ceiling. *)
Lemma formatTimeLeft_Fin (now e : Z) :
  formatTimeLeft now (Fin e) = clock_text (Z.max 0 (- ((- (e - now)) / 1000))).
Proof.
  unfold formatTimeLeft, clock_text. cbn [num_sub Math_ceil_div Math_max Math_floor_div num_rem].
  set (left := Z.max 0 _).
  assert (Hleft : 0 ≤ left) by (subst left; lia).
  destruct (decide (60 = 0)) as [?|_]; [lia|].
  rewrite Z.rem_mod_nonneg by lia.
  rewrite padStart_two_digits; [reflexivity|].
  apply Z.mod_pos_bound; lia.
Qed.



(** ** [useTimers] *)

Lemma num_le_Fin (e now : Z) : num_le (Fin e) (Fin now) = true ↔ e ≤ now.
Proof. unfold num_le. apply bool_decide_eq_true. Qed.

Lemma num_gt_Fin (e now : Z) : num_gt (Fin e) (Fin now) = true ↔ now < e.
Proof. unfold num_gt. apply bool_decide_eq_true. Qed.

(** A deadline is never both reached and ahead. *)
Lemma num_le_gt_exclusive (x : number) (now : Z) :
  num_le x (Fin now) = true → num_gt x (Fin now) = true → False.
Proof.
  destruct x as [e|]; [|discriminate].
  rewrite num_le_Fin, num_gt_Fin. lia.
Qed.

(** The check in its two cases. *)
Lemma expiryCheck_none (now : Z) (s : Timers) :
  expired now (timers s) = [] → expiryCheck now s = ([], s).
Proof.
  intros He. unfold expiryCheck, expiryEffect. rewrite He. reflexivity.
Qed.

Lemma expiryCheck_some (now : Z) (s : Timers) :
  expired now (timers s) ≠ [] →
  expiryCheck now s =
    (label <$> expired now (timers s),
     {| timers := filter (λ t, num_gt (endsAt t) (Fin now) = true) (timers s);
        nextId := nextId s |}).
Proof.
  intros He. unfold expiryCheck, expiryEffect.
  destruct (expired now (timers s)) as [|t l] eqn:E; [congruence|].
  destruct (decide _) as [_|Hn]; [reflexivity|].
  exfalso. apply Hn. cbn. lia.
Qed.

Lemma expiryCheck_sublist (now : Z) (s : Timers) :
  timers (expiryCheck now s).2 `sublist_of` timers s.
Proof.
  destruct (decide (expired now (timers s) = [])) as [He|He].
  - rewrite expiryCheck_none by exact He. reflexivity.
  - rewrite expiryCheck_some by exact He. cbn. apply sublist_filter.
Qed.

Lemma expiryCheck_nextId (now : Z) (s : Timers) :
  nextId (expiryCheck now s).2 = nextId s.
Proof.
  destruct (decide (expired now (timers s) = [])) as [He|He].
  - rewrite expiryCheck_none by exact He. reflexivity.
  - rewrite expiryCheck_some by exact He. reflexivity.
Qed.


(** A step that keeps a sublist of the timers and does not lower the counter
    keeps both parts of the invariant. *)
Lemma distinct_ids_sublist (s s' : Timers) :
  timers s' `sublist_of` timers s → distinct_ids s → distinct_ids s'.
Proof.
  unfold distinct_ids. intros Hsub Hnd.
  eapply sublist_NoDup; [exact Hnd|].
  apply fmap_sublist. exact Hsub.
Qed.

Lemma ids_below_counter_sublist (s s' : Timers) :
  timers s' `sublist_of` timers s → nextId s ≤ nextId s' →
  ids_below_counter s → ids_below_counter s'.
Proof.
  intros Hsub Hle Hb t Ht.
  assert (t ∈ timers s) as Ht'.
  { eapply elem_of_sublist; eassumption. }
  specialize (Hb t Ht'). lia.
Qed.

Lemma dismissTimer_sublist (i : Z) (s : Timers) :
  timers (dismissTimer i s) `sublist_of` timers s.
Proof. cbn. apply sublist_filter. Qed.

Section useTimers.
Context `{Platform}.

Lemma addTimer_distinct_ids (now : Z) (l d : value) (s : Timers) :
  distinct_ids s → ids_below_counter s → distinct_ids (addTimer now l d s).
Proof.
  unfold distinct_ids. intros Hnd Hb. cbn. rewrite fmap_app.
  apply NoDup_app. split; [exact Hnd|]. split; [|apply NoDup_singleton].
  intros i Hi Hin. cbn in Hin. apply list_elem_of_singleton in Hin. subst i.
  apply list_elem_of_fmap in Hi as (t & Heq & Ht).
  specialize (Hb t Ht). lia.
Qed.

Lemma addTimer_ids_below_counter (now : Z) (l d : value) (s : Timers) :
  ids_below_counter s → ids_below_counter (addTimer now l d s).
Proof.
  intros Hb t Ht. cbn in *.
  apply elem_of_app in Ht as [Ht|Ht].
  - specialize (Hb t Ht). lia.
  - apply list_elem_of_singleton in Ht. subst t. cbn. lia.
Qed.

Lemma Timers_step_invariant (s s' : Timers) :
  Timers_step s s' →
  distinct_ids s ∧ ids_below_counter s →
  distinct_ids s' ∧ ids_below_counter s'.
Proof.
  intros Hstep [Hnd Hb]. inversion Hstep; subst.
  - split; [apply addTimer_distinct_ids|apply addTimer_ids_below_counter]; assumption.
  - split.
    + eapply distinct_ids_sublist; [apply dismissTimer_sublist|exact Hnd].
    + eapply ids_below_counter_sublist; [apply dismissTimer_sublist| |exact Hb].
      cbn. lia.
  - split.
    + eapply distinct_ids_sublist; [apply expiryCheck_sublist|exact Hnd].
    + eapply ids_below_counter_sublist; [apply expiryCheck_sublist| |exact Hb].
      rewrite expiryCheck_nextId. lia.
Qed.

Lemma Timers_reachable_invariant (s : Timers) :
  Timers_reachable s → distinct_ids s ∧ ids_below_counter s.
Proof.
  unfold Timers_reachable. revert s.
  apply (rtc_ind_r (λ s, distinct_ids s ∧ ids_below_counter s)).
  - split; [apply NoDup_nil; exact I|]. intros t Ht. cbn in Ht. inversion Ht.
  - intros s1 s2 _ Hstep IH. eapply Timers_step_invariant; eassumption.
Qed.

(** C10: in every state the hook reaches, the listed timers have pairwise
    distinct ids, all below the counter.  [addTimer] appends one timer whose
    id is the counter and raises the counter by one; [dismissTimer(i)] keeps,
    unchanged and in order, exactly the timers whose id is not [i]; adding,
    dismissing and the expiry check each keep the ids distinct. *)
Theorem useTimers_distinct_ids :
  (∀ s, Timers_reachable s → distinct_ids s ∧ ids_below_counter s) ∧
  (∀ now l d s,
     ∃ t, timers (addTimer now l d s) = timers s ++ [t] ∧
          id t = nextId s ∧
          nextId (addTimer now l d s) = nextId s + 1 ∧
          (ids_below_counter s → ∀ u, u ∈ timers s → id u ≠ id t)) ∧
  (∀ i s,
     (∀ t, t ∈ timers (dismissTimer i s) ↔ t ∈ timers s ∧ id t ≠ i) ∧
     timers (dismissTimer i s) `sublist_of` timers s ∧
     nextId (dismissTimer i s) = nextId s) ∧
  (∀ s, distinct_ids s → ids_below_counter s →
     (∀ now l d, distinct_ids (addTimer now l d s)
                 ∧ ids_below_counter (addTimer now l d s)) ∧
     (∀ i, distinct_ids (dismissTimer i s)
           ∧ ids_below_counter (dismissTimer i s)) ∧
     (∀ now, distinct_ids (expiryCheck now s).2
             ∧ ids_below_counter (expiryCheck now s).2)).
Proof.
  split; [exact Timers_reachable_invariant|].
  split.
  { intros now l d s. eexists. split; [reflexivity|]. cbn.
    split; [reflexivity|]. split; [reflexivity|].
    intros Hb u Hu. specialize (Hb u Hu). lia. }
  split.
  { intros i s. split; [|split; [apply dismissTimer_sublist|reflexivity]].
    intros t. cbn. rewrite list_elem_of_filter. tauto. }
  intros s Hnd Hb. split; [|split].
  - intros now l d. apply (Timers_step_invariant s); [constructor|tauto].
  - intros i. apply (Timers_step_invariant s); [constructor|tauto].
  - intros now. apply (Timers_step_invariant s); [constructor|tauto].
Qed.

End useTimers.

(** ** [toggleGroceryItem] *)

Lemma strict_eq_str_refl (s : string) : strict_eq_str (VStr s) s = true.
Proof. cbn. apply bool_decide_eq_true. reflexivity. Qed.


Lemma includes_app (checked more : list value) (s : string) :
  includes (checked ++ more) s = includes checked s || includes more s.
Proof. unfold includes. apply existsb_app. Qed.

Lemma includes_singleton (s other : string) :
  includes [VStr s] other = bool_decide (s = other).
Proof. cbn. apply orb_false_r. Qed.

(** Filtering an ingredient out removes it from the list... *)
Lemma includes_filter_same (checked : list value) (s : string) :
  includes (List.filter (λ c, strict_ne_str c s) checked) s = false.
Proof.
  induction checked as [|c checked IH]; [reflexivity|].
  cbn. unfold strict_ne_str at 1.
  destruct (strict_eq_str c s) eqn:E; cbn; [exact IH|].
  rewrite E. exact IH.
Qed.





(** ** The token route *)

Lemma not_set_true (x : option string) :
  TokenRoute.not_set x = true ↔ missing_or_empty x.
Proof.
  unfold missing_or_empty. destruct x as [s|]; cbn.
  - rewrite bool_decide_eq_true. split.
    + intros ->. right. reflexivity.
    + intros [Hn|Hs]; [discriminate|congruence].
  - split; [intros _; left; reflexivity|reflexivity].
Qed.

(** C2: when one of [LIVEKIT_API_KEY], [LIVEKIT_API_SECRET] and
    [LIVEKIT_URL] is missing or empty, [GET] answers the error body with
    status 500 and builds no token; otherwise it answers, with status 200,
    the token signed from an [AccessToken] carrying the configured key and
    secret, a [user-] identity and the room grant, together with the
    configured URL. *)
Theorem GET_token_or_500 `{Platform} (env : TokenRoute.Env) (now : Z) (rnd36 : string) :
  (missing_or_empty (TokenRoute.LIVEKIT_API_KEY env)
   ∨ missing_or_empty (TokenRoute.LIVEKIT_API_SECRET env)
   ∨ missing_or_empty (TokenRoute.LIVEKIT_URL env) →
   TokenRoute.GET env now rnd36 = (credentials_error, None)) ∧
  (∀ key secret url,
     TokenRoute.LIVEKIT_API_KEY env = Some key → key ≠ "" →
     TokenRoute.LIVEKIT_API_SECRET env = Some secret → secret ≠ "" →
     TokenRoute.LIVEKIT_URL env = Some url → url ≠ "" →
     ∃ tok,
       TokenRoute.GET env now rnd36 =
         ({| TokenRoute.body := [("token", toJwt tok); ("url", url)];
             TokenRoute.status := 200 |}, Some tok) ∧
       at_apiKey tok = key ∧ at_apiSecret tok = secret ∧
       at_identity tok = "user-" +:+ slice 2 7 rnd36 ∧
       at_grants tok =
         [ {| roomJoin := true;
              room := "chef-claude-" +:+ Number_toString (Fin now);
              canPublish := true;
              canSubscribe := true |} ]).
Proof.
  split.
  - intros Hmiss. unfold TokenRoute.GET.
    assert (Htest : TokenRoute.not_set (TokenRoute.LIVEKIT_API_KEY env)
                    || TokenRoute.not_set (TokenRoute.LIVEKIT_API_SECRET env)
                    || TokenRoute.not_set (TokenRoute.LIVEKIT_URL env) = true).
    { rewrite !orb_true_iff, !not_set_true. tauto. }
    cbn zeta. rewrite Htest. reflexivity.
  - intros key secret url Hk Hk' Hs Hs' Hu Hu'. unfold TokenRoute.GET.
    rewrite Hk, Hs, Hu. cbn.
    rewrite !bool_decide_false by assumption. cbn.
    eexists. split; [reflexivity|]. cbn. repeat split.
Qed.

(** ** [handleData] *)

(** Once [msg.type] has been read, every property read of [msg] succeeds. *)
Lemma get_nonnull (msg ty : value) (k : string) :
  get_property msg "type" = Some ty → get msg k = mret (read msg k).
Proof.
  intros Hty. unfold get, read.
  destruct msg; try discriminate Hty; reflexivity.
Qed.

Lemma read_type (msg ty : value) :
  get_property msg "type" = Some ty → read msg "type" = ty.
Proof. intros Hty. unfold read. rewrite Hty. reflexivity. Qed.

Lemma get_nullish (v : value) (k : string) (st : UIState) :
  nullish v = true → get v k st = (st, Throw).
Proof. destruct v; try discriminate; reflexivity. Qed.

Lemma get_not_nullish (v : value) (k : string) :
  nullish v = false → get v k = mret (read v k).
Proof. destruct v; try discriminate; reflexivity. Qed.

(** Running the block on a message whose [type] reads as [ty]: the monad is
    unfolded and the reads are replaced by their values. *)
Ltac run_block Hty :=
  unfold type_is, andM, orM;
  rewrite ?(get_nonnull _ _ _ Hty), ?(read_type _ _ Hty);
  unfold mbind, mret, Handler_bind, Handler_ret; cbn.

(** A throw before any setter: the listener leaves the state as it is. *)
Lemma handleData_unparsed `{Platform} (now : Z) (payload : list Byte.byte)
    (topic : option string) (st : UIState) :
  JSON_parse (TextDecoder_decode payload) = None →
  handleData now payload topic st = st.
Proof.
  intros Hp. unfold handleData, try_catch, parse.
  unfold mbind, Handler_bind. rewrite Hp. reflexivity.
Qed.

Lemma handleData_parsed `{Platform} (now : Z) (payload : list Byte.byte)
    (topic : option string) (st : UIState) (msg : value) :
  JSON_parse (TextDecoder_decode payload) = Some msg →
  handleData now payload topic st = (on_message now topic msg st).1.
Proof.
  intros Hp. unfold handleData, try_catch, parse.
  unfold mbind, Handler_bind. rewrite Hp. reflexivity.
Qed.

(** Reading [msg.type] on [undefined] or [null] throws in every branch that
    reads it; the other branches do nothing. *)
Lemma on_message_null `{Platform} (now : Z) (topic : option string)
    (msg : value) (st : UIState) :
  get_property msg "type" = None → (on_message now topic msg st).1 = st.
Proof.
  intros Hty.
  assert (Hget : ∀ s, get msg "type" s = (s, Throw)).
  { intros s. unfold get. rewrite Hty. reflexivity. }
  unfold on_message, on_recipe, on_grocery, type_is, andM, orM.
  unfold mbind, mret, Handler_bind, Handler_ret.
  destruct (topic_is topic "timer"); [rewrite Hget; reflexivity|].
  destruct (topic_is topic "camera_request"); [rewrite Hget; reflexivity|].
  destruct (topic_is topic "recipe"); [rewrite Hget; reflexivity|].
  destruct (topic_is topic "suggestions"); [rewrite Hget; reflexivity|].
  destruct (topic_is topic "grocery_list"); [rewrite Hget; reflexivity|].
  reflexivity.
Qed.

(** The grocery callback does not touch the state; it throws exactly on a
    [null] element. *)
Lemma groceryItem_of_run (item : value) (st : UIState) :
  groceryItem_of item st =
    (st, if nullish item then Throw else Normal (groceryItem_defaults item)).
Proof.
  unfold groceryItem_of. destruct (nullish item) eqn:Hn.
  - unfold mbind, Handler_bind. rewrite get_nullish by exact Hn. reflexivity.
  - rewrite !(get_not_nullish _ _ Hn). reflexivity.
Qed.

Lemma mapM_groceryItem_of_run (elems : list value) (st : UIState) :
  mapM groceryItem_of elems st =
    (st, if forallb (λ item, negb (nullish item)) elems
         then Normal (groceryItem_defaults <$> elems)
         else Throw).
Proof.
  induction elems as [|item elems IH]; [reflexivity|].
  cbn [mapM forallb fmap list_fmap]. unfold mbind at 1, Handler_bind at 1.
  rewrite groceryItem_of_run.
  destruct (nullish item); cbn [negb andb]; [reflexivity|].
  unfold mbind at 1, Handler_bind at 1. rewrite IH.
  destruct (forallb _ elems); reflexivity.
Qed.

Lemma array_map_groceryItem_of_run (msg : value) (st : UIState) :
  array_map groceryItem_of (or (read msg "items") (VArr [])) st =
    (st, match grocery_items msg with
         | Some l => Normal l
         | None => Throw
         end).
Proof.
  unfold grocery_items, array_map.
  destruct (or (read msg "items") (VArr [])); try reflexivity.
  rewrite mapM_groceryItem_of_run.
  destruct (forallb _ elems); reflexivity.
Qed.

(** The branch [topic === "grocery_list"], in one equation. *)
Lemma on_grocery_run (msg ty : value) (st : UIState) :
  get_property msg "type" = Some ty →
  (on_grocery msg st).1 =
    if one_of ty grocery_types then
      match grocery_items msg with
      | Some l =>
          {| ui_timers := ui_timers st;
             cameraRequest := cameraRequest st;
             recipe := recipe st;
             dishSuggestions := dishSuggestions st;
             groceryList := l;
             groceryListOpen :=
               if strict_eq_str ty "grocery_list_show" then true
               else groceryListOpen st |}
      | None => st
      end
    else st.
Proof.
  intros Hty. unfold on_grocery, one_of, grocery_types. run_block Hty.
  destruct (strict_eq_str ty "grocery_list_update") eqn:Eu;
    destruct (strict_eq_str ty "grocery_list_show") eqn:Es; cbn;
    rewrite ?array_map_groceryItem_of_run;
    try destruct (grocery_items msg); cbn; rewrite ?Es; reflexivity.
Qed.

(** The branch [topic === "recipe"] leaves the timers, the camera flag and
    the grocery list alone; only [recipe_start] touches the suggestions; a
    [type] outside the five recipe types changes nothing. *)
Lemma on_recipe_frame (msg ty : value) (st : UIState) :
  get_property msg "type" = Some ty →
  let st' := (on_recipe msg st).1 in
  ui_timers st' = ui_timers st ∧
  cameraRequest st' = cameraRequest st ∧
  groceryList st' = groceryList st ∧
  groceryListOpen st' = groceryListOpen st ∧
  (strict_eq_str ty "recipe_start" = false → dishSuggestions st' = dishSuggestions st) ∧
  (one_of ty recipe_types = false → st' = st).
Proof.
  intros Hty. unfold on_recipe, one_of, recipe_types. run_block Hty.
  destruct (strict_eq_str ty "recipe_start"); cbn;
    [repeat split; intros; discriminate|].
  destruct (strict_eq_str ty "recipe_refresh"); cbn;
    [repeat split; intros; discriminate|].
  destruct (strict_eq_str ty "step_update"); cbn;
    [repeat split; intros; discriminate|].
  destruct (strict_eq_str ty "recipe_update"); cbn;
    [repeat split; intros; discriminate|].
  destruct (strict_eq_str ty "recipe_end"); cbn;
    [repeat split; intros; discriminate|].
  repeat split.
Qed.

(** The chain of tests of [on_message], one category at a time. *)
Lemma on_message_run `{Platform} (now : Z) (topic : option string)
    (msg ty : value) (st : UIState) :
  get_property msg "type" = Some ty →
  (on_message now topic msg st).1 =
    if topic_is topic "timer" && strict_eq_str ty "set_timer" then
      (setTimers (addTimer now (read msg "label") (read msg "duration_seconds")) st).1
    else if topic_is topic "camera_request" && strict_eq_str ty "request_camera" then
      (setCameraRequest true st).1
    else if topic_is topic "recipe" then (on_recipe msg st).1
    else if topic_is topic "suggestions" && strict_eq_str ty "dish_suggestions" then
      (setDishSuggestions (or (read msg "options") (VArr [])) st).1
    else if topic_is topic "grocery_list" then (on_grocery msg st).1
    else st.
Proof.
  intros Hty. unfold on_message. run_block Hty.
  destruct (topic_is topic "timer"); cbn;
    [destruct (strict_eq_str ty "set_timer"); cbn; [reflexivity|]|];
  (destruct (topic_is topic "camera_request"); cbn;
    [destruct (strict_eq_str ty "request_camera"); cbn; [reflexivity|]|]);
  (destruct (topic_is topic "recipe"); cbn; [reflexivity|]);
  (destruct (topic_is topic "suggestions"); cbn;
    [destruct (strict_eq_str ty "dish_suggestions"); cbn; [reflexivity|]|]);
  (destruct (topic_is topic "grocery_list"); reflexivity).
Qed.


(** Evaluating the tests on a known topic. *)
Ltac eval_topic :=
  repeat match goal with
         | |- context [topic_is (Some ?a) ?b] =>
             let v := eval vm_compute in (topic_is (Some a) b) in
             change (topic_is (Some a) b) with v
         end;
  cbn [andb].


(** C3: a payload that does not parse as JSON leaves the whole state as it
    was: the timers, the camera flag, the recipe, the suggestions, the
    grocery list and its open flag. *)
Theorem handleData_ignores_invalid_json `{Platform} (now : Z)
    (payload : list Byte.byte) (topic : option string) (st : UIState) :
  JSON_parse (TextDecoder_decode payload) = None →
  let st' := handleData now payload topic st in
  st' = st ∧
  ui_timers st' = ui_timers st ∧
  cameraRequest st' = cameraRequest st ∧
  recipe st' = recipe st ∧
  dishSuggestions st' = dishSuggestions st ∧
  groceryList st' = groceryList st ∧
  groceryListOpen st' = groceryListOpen st.
Proof.
  intros Hp. cbn zeta. rewrite (handleData_unparsed _ _ _ _ Hp).
  repeat split.
Qed.

(** The converse reading: a payload that changes the state did parse. *)
Lemma handleData_changes_only_on_json `{Platform} (now : Z)
    (payload : list Byte.byte) (topic : option string) (st : UIState) :
  handleData now payload topic st ≠ st →
  ∃ msg, JSON_parse (TextDecoder_decode payload) = Some msg.
Proof.
  intros Hne. destruct (JSON_parse (TextDecoder_decode payload)) as [msg|] eqn:Hp.
  - exists msg. reflexivity.
  - exfalso. apply Hne. apply handleData_unparsed. exact Hp.
Qed.

Lemma or_falsy (a b : value) : truthy a = false → or a b = b.
Proof. unfold or. intros ->. reflexivity. Qed.

Lemma or_truthy (a b : value) : truthy a = true → or a b = a.
Proof. unfold or. intros ->. reflexivity. Qed.

(** C5: a [recipe_start] message on topic [recipe] replaces the recipe by
    one with the title of the message, with [servings] and
    [prepTimeMinutes] defaulting to 1 and 0 and [ingredients] and [steps] to
    the empty list when the field is absent or falsy, and with no current
    step and no tutorial field; it empties the dish suggestions and leaves
    the rest of the state alone. *)
Theorem recipe_start_replaces_recipe `{Platform} (now : Z)
    (payload : list Byte.byte) (st : UIState) (msg : value) :
  JSON_parse (TextDecoder_decode payload) = Some msg →
  get_property msg "type" = Some (VStr "recipe_start") →
  ∃ r,
    handleData now payload (Some "recipe") st =
      {| ui_timers := ui_timers st;
         cameraRequest := cameraRequest st;
         recipe := Some r;
         dishSuggestions := VArr [];
         groceryList := groceryList st;
         groceryListOpen := groceryListOpen st |} ∧
    title r = read msg "title" ∧
    servings r = or (read msg "servings") (VNum (Fin 1)) ∧
    prepTimeMinutes r = or (read msg "prep_time_minutes") (VNum (Fin 0)) ∧
    ingredients r = or (read msg "ingredients") (VArr []) ∧
    steps r = or (read msg "steps") (VArr []) ∧
    (truthy (read msg "servings") = false → servings r = VNum (Fin 1)) ∧
    (truthy (read msg "prep_time_minutes") = false → prepTimeMinutes r = VNum (Fin 0)) ∧
    (truthy (read msg "ingredients") = false → ingredients r = VArr []) ∧
    (truthy (read msg "steps") = false → steps r = VArr []) ∧
    currentStep r = VUndefined ∧
    tutorialUrl r = VUndefined ∧ tutorialTitle r = VUndefined ∧
    tutorialSource r = VUndefined ∧
    ogImage r = VUndefined ∧ ogTitle r = VUndefined ∧ ogDescription r = VUndefined.
Proof.
  intros Hp Hty. rewrite (handleData_parsed _ _ _ _ _ Hp).
  rewrite (on_message_run _ _ _ _ _ Hty). eval_topic.
  unfold on_recipe. run_block Hty.
  rewrite bool_decide_true by reflexivity. cbn.
  eexists. split; [reflexivity|]. cbn.
  repeat split; intros Hf; apply or_falsy; exact Hf.
Qed.

(** C7, amended: a [grocery_list_update] or [grocery_list_show] message on
    topic [grocery_list] whose [items] is absent, falsy, or an array without
    [null] element replaces the whole grocery list by these items, with the
    defaults for their absent fields; [grocery_list_show] then sets the open
    flag and [grocery_list_update] leaves it.  A message whose [items] is
    any other value is ignored: neither the list nor the flag changes. *)
Theorem grocery_list_replaced `{Platform} (now : Z) (payload : list Byte.byte)
    (st : UIState) (msg ty : value) :
  JSON_parse (TextDecoder_decode payload) = Some msg →
  get_property msg "type" = Some ty →
  one_of ty grocery_types = true →
  handleData now payload (Some "grocery_list") st =
    match grocery_items msg with
    | Some l =>
        {| ui_timers := ui_timers st;
           cameraRequest := cameraRequest st;
           recipe := recipe st;
           dishSuggestions := dishSuggestions st;
           groceryList := l;
           groceryListOpen :=
             if strict_eq_str ty "grocery_list_show" then true
             else groceryListOpen st |}
    | None => st
    end
  ∧ (truthy (read msg "items") = false → grocery_items msg = Some [])
  ∧ (∀ elems, read msg "items" = VArr elems →
       Forall (λ item, nullish item = false) elems →
       grocery_items msg = Some (groceryItem_defaults <$> elems))
  ∧ (∀ item, read item "recipe" = VUndefined →
       read item "ingredients" = VUndefined →
       read item "checked" = VUndefined →
       groceryItem_defaults item =
         {| g_recipe := VStr ""; g_ingredients := VArr []; g_checked := VArr [] |}).
Proof.
  intros Hp Hty Hone. split; [|split; [|split]].
  - rewrite (handleData_parsed _ _ _ _ _ Hp).
    rewrite (on_message_run _ _ _ _ _ Hty). eval_topic.
    rewrite (on_grocery_run _ _ _ Hty), Hone. reflexivity.
  - intros Hf. unfold grocery_items. rewrite or_falsy by exact Hf. reflexivity.
  - intros elems Hitems Hall. unfold grocery_items.
    rewrite Hitems, or_truthy by reflexivity.
    assert (Hfb : forallb (λ item, negb (nullish item)) elems = true).
    { apply forallb_forall. intros item Hin.
      rewrite Forall_forall in Hall.
      rewrite (Hall item); [reflexivity|]. apply list_elem_of_In. exact Hin. }
    rewrite Hfb. reflexivity.
  - intros item Hr Hi Hc. unfold groceryItem_defaults.
    rewrite Hr, Hi, Hc. reflexivity.
Qed.

(** C8: with no recipe displayed, [recipe_refresh], [step_update] and
    [recipe_update] on topic [recipe] change nothing: the recipe stays
    [null] and so does the rest of the state. *)
Theorem recipe_updates_without_recipe `{Platform} (now : Z)
    (payload : list Byte.byte) (st : UIState) (msg ty : value) :
  JSON_parse (TextDecoder_decode payload) = Some msg →
  get_property msg "type" = Some ty →
  one_of ty ["recipe_refresh"; "step_update"; "recipe_update"] = true →
  recipe st = None →
  handleData now payload (Some "recipe") st = st ∧
  recipe (handleData now payload (Some "recipe") st) = None.
Proof.
  intros Hp Hty Hone Hnone.
  assert (Heq : handleData now payload (Some "recipe") st = st).
  { rewrite (handleData_parsed _ _ _ _ _ Hp).
    rewrite (on_message_run _ _ _ _ _ Hty). eval_topic.
    unfold on_recipe. run_block Hty.
    destruct st as [tm cam rec sugg gl glo]. cbn in Hnone. subst rec.
    unfold one_of in Hone. cbn in Hone.
    destruct (strict_eq_str ty "recipe_start") eqn:Es; cbn.
    - (* [recipe_start] is none of the three *)
      exfalso. destruct ty; try discriminate Es.
      cbn in Es. apply bool_decide_eq_true in Es. subst s.
      vm_compute in Hone. discriminate Hone.
    - destruct (strict_eq_str ty "recipe_refresh"); cbn; [reflexivity|].
      destruct (strict_eq_str ty "step_update"); cbn; [reflexivity|].
      destruct (strict_eq_str ty "recipe_update"); cbn; [reflexivity|].
      discriminate Hone. }
  split; [exact Heq|]. rewrite Heq. exact Hnone.
Qed.

(** A [set_timer] message without [duration_seconds] stores the deadline
    [NaN]: [undefined * 1000] is [NaN], and so is its sum with the clock. *)
Lemma set_timer_without_duration `{Platform} (now : Z) (payload : list Byte.byte)
    (st : UIState) (msg : value) :
  JSON_parse (TextDecoder_decode payload) = Some msg →
  get_property msg "type" = Some (VStr "set_timer") →
  read msg "duration_seconds" = VUndefined →
  timers (ui_timers (handleData now payload (Some "timer") st)) =
    timers (ui_timers st) ++
    [ {| id := nextId (ui_timers st);
         label := read msg "label";
         endsAt := NaN;
         duration := VUndefined |} ].
Proof.
  intros Hp Hty Hd. rewrite (handleData_parsed _ _ _ _ _ Hp).
  rewrite (on_message_run _ _ _ _ _ Hty). eval_topic.
  rewrite strict_eq_str_refl. cbn. rewrite Hd. reflexivity.
Qed.

(** ** Runs on concrete inputs *)

Example handleData_set_timer_NaN :
  let st := @handleData reference_platform 1000
              (payload_of "{'type':'set_timer','label':'eggs'}")
              (Some "timer") UIState_init in
  (λ t, formatTimeLeft 2000 (endsAt t)) <$> timers (ui_timers st) = ["NaN:NaN"].
Proof. vm_compute. reflexivity. Qed.

Example formatTimeLeft_90s : formatTimeLeft 1000 (Fin 90500) = "1:30".
Proof. vm_compute. reflexivity. Qed.

Example expiryCheck_run :
  expiryCheck 5000
    {| timers := [ mkTimer 0 (VStr "eggs") (Fin 4000) (VNum (Fin 3));
                   mkTimer 1 (VStr "rice") (Fin 9000) (VNum (Fin 8));
                   mkTimer 2 (VStr "tea") (Fin 5000) (VNum (Fin 4)) ];
       nextId := 3 |}
  = ([VStr "eggs"; VStr "tea"],
     {| timers := [ mkTimer 1 (VStr "rice") (Fin 9000) (VNum (Fin 8)) ];
        nextId := 3 |}).
Proof. vm_compute. reflexivity. Qed.

Example GET_missing_secret :
  @TokenRoute.GET reference_platform
    (TokenRoute.mkEnv (Some "key") None (Some "wss://kitchen")) 1700000000000
    "0.4fzyo82mvyr"
  = (credentials_error, None).
Proof. vm_compute. reflexivity. Qed.

Example GET_configured :
  @TokenRoute.GET reference_platform
    (TokenRoute.mkEnv (Some "key") (Some "secret") (Some "wss://kitchen"))
    1700000000000 "0.4fzyo82mvyr"
  = ({| TokenRoute.body := [("token", "jwt:key:user-4fzyo"); ("url", "wss://kitchen")];
        TokenRoute.status := 200 |},
     Some {| at_apiKey := "key";
             at_apiSecret := "secret";
             at_identity := "user-4fzyo";
             at_grants := [ {| roomJoin := true;
                               room := "chef-claude-1700000000000";
                               canPublish := true;
                               canSubscribe := true |} ] |}).
Proof. vm_compute. reflexivity. Qed.


(** C3, witness: a payload with an unquoted key is not JSON. *)
Lemma handleData_ignores_invalid_json_witness :
  @handleData reference_platform 1000 (payload_of "{type: 'set_timer'}")
    (Some "timer") UIState_init = UIState_init.
Proof.
  exact (proj1 (@handleData_ignores_invalid_json reference_platform 1000
                  (payload_of "{type: 'set_timer'}") (Some "timer") UIState_init
                  eq_refl)).
Defined.

(** C5, witness: a [recipe_start] with a title and steps only, received
    while suggestions are on display. *)
Lemma recipe_start_replaces_recipe_witness :
  ∃ r,
    recipe (@handleData reference_platform 1000 (payload_of start_soup)
              (Some "recipe") suggesting) = Some r ∧
    dishSuggestions (@handleData reference_platform 1000 (payload_of start_soup)
                       (Some "recipe") suggesting) = VArr [] ∧
    title r = VStr "Soup" ∧
    servings r = VNum (Fin 1) ∧
    prepTimeMinutes r = VNum (Fin 0) ∧
    ingredients r = VArr [] ∧
    steps r = VArr [VStr "boil"; VStr "serve"] ∧
    currentStep r = VUndefined.
Proof.
  destruct (@recipe_start_replaces_recipe reference_platform 1000
              (payload_of start_soup) suggesting
              (VObj [("type", VStr "recipe_start"); ("title", VStr "Soup");
                     ("steps", VArr [VStr "boil"; VStr "serve"])])
              eq_refl eq_refl)
    as (r & Heq & Ht & Hs & Hp & Hi & Hst & _ & _ & _ & _ & Hc & _).
  exists r. rewrite Heq. cbn [recipe dishSuggestions].
  repeat split; assumption.
Defined.

(** C7, counterexample: a [grocery_list_show] whose [items] holds [null].
    The callback throws on the element, so the list on display is not
    replaced and the open flag is not set. *)
Lemma grocery_list_null_item_counterexample :
  @JSON_parse reference_platform
    (@TextDecoder_decode reference_platform (payload_of show_null_item))
    = Some (VObj [("type", VStr "grocery_list_show"); ("items", VArr [VNull])]) ∧
  groceryList (@handleData reference_platform 1000 (payload_of show_null_item)
                 (Some "grocery_list") shopping) = groceryList shopping ∧
  groceryListOpen (@handleData reference_platform 1000 (payload_of show_null_item)
                     (Some "grocery_list") shopping) = false.
Proof. vm_compute. repeat split. Qed.

(** C7, witness: a [grocery_list_show] with one group. *)
Lemma grocery_list_replaced_witness :
  @handleData reference_platform 1000 (payload_of show_salad)
    (Some "grocery_list") shopping
  = {| ui_timers := Timers_init;
       cameraRequest := false;
       recipe := None;
       dishSuggestions := VArr [];
       groceryList :=
         [ {| g_recipe := VStr "Salad";
              g_ingredients := VArr [VStr "oil"];
              g_checked := VArr [] |} ];
       groceryListOpen := true |}.
Proof.
  exact (proj1 (@grocery_list_replaced reference_platform 1000
                  (payload_of show_salad) shopping
                  (VObj [("type", VStr "grocery_list_show");
                         ("items", VArr [VObj [("recipe", VStr "Salad");
                                               ("ingredients", VArr [VStr "oil"])]])])
                  (VStr "grocery_list_show") eq_refl eq_refl eq_refl)).
Defined.

(** C8, witness: a [step_update] before any recipe was started. *)
Lemma recipe_updates_without_recipe_witness :
  @handleData reference_platform 1000 (payload_of step_two) (Some "recipe")
    UIState_init = UIState_init.
Proof.
  exact (proj1 (@recipe_updates_without_recipe reference_platform 1000
                  (payload_of step_two) UIState_init
                  (VObj [("type", VStr "step_update"); ("step_number", VNum (Fin 2))])
                  (VStr "step_update") eq_refl eq_refl eq_refl eq_refl)).
Defined.


(** * Further properties *)

(** ** Decimal texts *)

Lemma Number_toString_inj (a b : Z) :
  Number_toString (Fin a) = Number_toString (Fin b) → a = b.
Proof.
  cbn. intros Heq.
  assert (Hrt : ∀ z, NilZero.int_of_string (NilZero.string_of_int (Z.to_int z))
                     = Some (Z.to_int z)).
  { intros z. apply NilZero.isi; destruct z; cbn; try discriminate;
      intros [= Hnil]; exact (DecimalPos.Unsigned.to_uint_nonnil _ Hnil). }
  pose proof (Hrt a) as Ha. rewrite Heq, Hrt in Ha.
  injection Ha as Ha.
  rewrite <- (DecimalZ.of_to a), <- (DecimalZ.of_to b), Ha. reflexivity.
Qed.

Lemma append_length (x y : string) :
  String.length (x +:+ y) = (String.length x + String.length y)%nat.
Proof.
  induction x as [|c x IH]; [reflexivity|].
  change (S (String.length (x +:+ y)) = S (String.length x + String.length y)).
  rewrite IH. reflexivity.
Qed.

(** Two texts with the same ending of the same length have the same
    beginning. *)
Lemma append_inj_same_length (x y s t : string) :
  String.length s = String.length t → x +:+ s = y +:+ t → x = y ∧ s = t.
Proof.
  intros Hlen. revert y. induction x as [|c x IH]; intros [|d y] Heq.
  - split; [reflexivity|exact Heq].
  - exfalso. change (s = String d (y +:+ t)) in Heq.
    apply (f_equal String.length) in Heq.
    change (String.length s = S (String.length (y +:+ t))) in Heq.
    rewrite append_length in Heq. lia.
  - exfalso. change (String c (x +:+ s) = t) in Heq.
    apply (f_equal String.length) in Heq.
    change (S (String.length (x +:+ s)) = String.length t) in Heq.
    rewrite append_length in Heq. lia.
  - change (String c (x +:+ s) = String d (y +:+ t)) in Heq.
    injection Heq as -> Heq. destruct (IH y Heq) as [-> ->]. split; reflexivity.
Qed.

Lemma digit_inj (a b : Z) : 0 ≤ a < 10 → 0 ≤ b < 10 → digit a = digit b → a = b.
Proof.
  intros Ha Hb Heq. unfold digit in Heq.
  apply (f_equal nat_of_ascii) in Heq.
  rewrite !nat_ascii_embedding in Heq by lia. lia.
Qed.

Lemma two_digits_inj (a b : Z) :
  0 ≤ a < 60 → 0 ≤ b < 60 → two_digits a = two_digits b → a = b.
Proof.
  intros Ha Hb Heq. unfold two_digits in Heq. injection Heq as H1 H2.
  apply digit_inj in H1; [|split; [apply Z.div_pos; lia|apply Z.div_lt_upper_bound; lia]..].
  apply digit_inj in H2; [|apply Z.mod_pos_bound; lia..].
  rewrite (Z.div_mod a 10), (Z.div_mod b 10) by lia. lia.
Qed.

(** The clock text determines the number of seconds. *)
Lemma clock_text_inj (a b : Z) :
  0 ≤ a → 0 ≤ b → clock_text a = clock_text b → a = b.
Proof.
  intros Ha Hb Heq. unfold clock_text in Heq.
  apply append_inj_same_length in Heq as [Hm Hs]; [|reflexivity].
  apply Number_toString_inj in Hm.
  injection Hs as Hs1 Hs2.
  assert (Hs : two_digits (a mod 60) = two_digits (b mod 60)).
  { unfold two_digits. rewrite Hs1, Hs2. reflexivity. }
  apply two_digits_inj in Hs; [|apply Z.mod_pos_bound; lia..].
  rewrite (Z.div_mod a 60), (Z.div_mod b 60) by lia. lia.
Qed.

Lemma formatTimeLeft_seconds_left (now e : Z) :
  formatTimeLeft now (Fin e) = clock_text (seconds_left now e).
Proof. apply formatTimeLeft_Fin. Qed.

Lemma seconds_left_spec (now e : Z) :
  0 ≤ seconds_left now e ∧
  (e ≤ now → seconds_left now e = 0) ∧
  (now < e → 1000 * (seconds_left now e - 1) < e - now ≤ 1000 * seconds_left now e).
Proof.
  unfold seconds_left.
  pose proof (Z.div_mod (- (e - now)) 1000) as Hdm.
  pose proof (Z.mod_pos_bound (- (e - now)) 1000) as Hb.
  repeat split; intros; lia.
Qed.

(** ** The countdown *)

(** X1: the display of a finite deadline reads ["0:00"] exactly when the
    deadline is reached, that is exactly when the expiry check counts the
    timer as expired. *)
Theorem formatTimeLeft_zero_iff_expired (now e : Z) :
  (formatTimeLeft now (Fin e) = "0:00" ↔ e ≤ now) ∧
  (formatTimeLeft now (Fin e) = "0:00" ↔ num_le (Fin e) (Fin now) = true).
Proof.
  assert (H0 : formatTimeLeft now (Fin e) = "0:00" ↔ e ≤ now).
  { rewrite formatTimeLeft_seconds_left.
    destruct (seconds_left_spec now e) as (Hnn & Hexp & Hrun).
    split.
    - intros Heq. change "0:00" with (clock_text 0) in Heq.
      apply clock_text_inj in Heq; [|exact Hnn|lia].
      destruct (Z.le_gt_cases e now) as [Hle|Hgt]; [exact Hle|].
      specialize (Hrun Hgt). lia.
    - intros Hle. rewrite (Hexp Hle). reflexivity. }
  split; [exact H0|]. rewrite H0, num_le_Fin. reflexivity.
Qed.


(** ** Adding, dismissing and expiring timers *)

Lemma filter_id_ne_below (i : Z) (l : list Timer) :
  (∀ t, t ∈ l → id t < i) → filter (λ t, id t ≠ i) l = l.
Proof.
  induction l as [|t l IH]; intros Hb; [reflexivity|].
  rewrite filter_cons_True.
  - f_equal. apply IH. intros u Hu. apply Hb. right. exact Hu.
  - specialize (Hb t ltac:(left)). lia.
Qed.

(** X3: dismissing the timer that [addTimer] has just appended gives back
    the list as it was before; only the counter has moved on. *)
Theorem addTimer_dismissTimer_roundtrip `{Platform} (now : Z) (l d : value)
    (s : Timers) :
  ids_below_counter s →
  dismissTimer (nextId s) (addTimer now l d s) =
    {| timers := timers s; nextId := nextId s + 1 |}.
Proof.
  intros Hb. unfold dismissTimer, addTimer. cbn. f_equal.
  rewrite filter_app, filter_id_ne_below by exact Hb.
  rewrite filter_cons_False by (cbn; intros Hne; apply Hne; reflexivity).
  apply app_nil_r.
Qed.

Lemma filter_id_ne_absent (i : Z) (l : list Timer) :
  i ∉ id <$> l → filter (λ t, id t ≠ i) l = l.
Proof.
  induction l as [|t l IH]; intros Hni; [reflexivity|].
  cbn in Hni. rewrite not_elem_of_cons in Hni. destruct Hni as [Hne Hni].
  rewrite filter_cons_True by (intros Heq; apply Hne; symmetry; exact Heq).
  f_equal. apply IH, Hni.
Qed.

(** With distinct ids, filtering one listed id out removes one element. *)
Lemma filter_id_ne_length (t : Timer) (l : list Timer) :
  NoDup (id <$> l) → t ∈ l →
  (length (filter (λ u, id u ≠ id t) l) + 1 = length l)%nat ∧
  ∀ u, u ∈ l → (u ∈ filter (λ u, id u ≠ id t) l ↔ u ≠ t).
Proof.
  intros Hnd Ht. split.
  - induction l as [|u l IH]; [inversion Ht|].
    cbn in Hnd. apply NoDup_cons in Hnd as [Hu Hnd].
    apply elem_of_cons in Ht as [->|Ht].
    + rewrite filter_cons_False by (intros Hne; apply Hne; reflexivity).
      rewrite filter_id_ne_absent by exact Hu. cbn. lia.
    + rewrite filter_cons_True.
      * cbn. rewrite <- (IH Hnd Ht). lia.
      * intros Heq. apply Hu. rewrite Heq. apply list_elem_of_fmap_2. exact Ht.
  - intros u Hu. rewrite list_elem_of_filter. split.
    + intros [Hne _] ->. apply Hne. reflexivity.
    + intros Hne. split; [|exact Hu]. intros Heq. apply Hne.
      (* two listed timers with the same id are the same timer *)
      clear Hne. induction l as [|v l IH]; [inversion Hu|].
      cbn in Hnd. apply NoDup_cons in Hnd as [Hv Hnd].
      apply elem_of_cons in Hu as [->|Hu]; apply elem_of_cons in Ht as [->|Ht].
      * reflexivity.
      * exfalso. apply Hv. rewrite Heq. apply list_elem_of_fmap_2. exact Ht.
      * exfalso. apply Hv. rewrite <- Heq. apply list_elem_of_fmap_2. exact Hu.
      * apply IH; assumption.
Qed.

(** X4: when the ids are distinct, as they are in every state the hook
    reaches, the dismiss button of a listed timer removes that timer and no
    other: the list gets one shorter and keeps every other timer. *)
Theorem dismissTimer_removes_one (s : Timers) (t : Timer) :
  distinct_ids s → t ∈ timers s →
  (length (timers (dismissTimer (id t) s)) + 1 = length (timers s))%nat ∧
  (t ∉ timers (dismissTimer (id t) s)) ∧
  (∀ u, u ∈ timers s → u ≠ t → u ∈ timers (dismissTimer (id t) s)) ∧
  timers (dismissTimer (id t) s) `sublist_of` timers s.
Proof.
  intros Hnd Ht. destruct (filter_id_ne_length t (timers s) Hnd Ht) as [Hlen Hmem].
  split; [exact Hlen|]. split; [|split].
  - intros Hin. apply (Hmem t Ht) in Hin. apply Hin. reflexivity.
  - intros u Hu Hne. apply (Hmem u Hu). exact Hne.
  - apply dismissTimer_sublist.
Qed.

(** X5: a timer whose deadline is [NaN] never counts as expired and never
    plays an alarm; it stays while no other timer expires, and the first
    check at which another timer has expired drops it from the list. *)
Theorem expiryCheck_NaN_timer (now : Z) (s : Timers) (t : Timer) :
  t ∈ timers s → endsAt t = NaN →
  (t ∉ expired now (timers s)) ∧
  (expired now (timers s) = [] → (expiryCheck now s).2 = s) ∧
  (expired now (timers s) ≠ [] → t ∉ timers (expiryCheck now s).2).
Proof.
  intros Ht Hnan. split; [|split].
  - unfold expired. rewrite list_elem_of_filter, Hnan. cbn. intros [Hf _].
    discriminate Hf.
  - intros He. rewrite expiryCheck_none by exact He. reflexivity.
  - intros He. rewrite expiryCheck_some by exact He. cbn.
    rewrite list_elem_of_filter, Hnan. cbn. intros [Hf _]. discriminate Hf.
Qed.


(** ** What a data message can and cannot do *)

(** The possible effects of one call of the listener. *)
Lemma handleData_cases `{Platform} (now : Z) (payload : list Byte.byte)
    (topic : option string) (st : UIState) :
  handleData now payload topic st = st ∨
  (∃ l d, handleData now payload topic st = (setTimers (addTimer now l d) st).1) ∨
  handleData now payload topic st = (setCameraRequest true st).1 ∨
  (∃ msg ty, get_property msg "type" = Some ty ∧
             handleData now payload topic st = (on_recipe msg st).1) ∨
  (∃ v, handleData now payload topic st = (setDishSuggestions v st).1) ∨
  (∃ msg ty, get_property msg "type" = Some ty ∧
             handleData now payload topic st = (on_grocery msg st).1).
Proof.
  destruct (JSON_parse (TextDecoder_decode payload)) as [msg|] eqn:Hp;
    [|left; apply handleData_unparsed; exact Hp].
  rewrite (handleData_parsed _ _ _ _ _ Hp).
  destruct (get_property msg "type") as [ty|] eqn:Hty;
    [|left; apply on_message_null; exact Hty].
  rewrite (on_message_run _ _ _ _ _ Hty).
  destruct (topic_is topic "timer" && strict_eq_str ty "set_timer");
    [right; left; eauto|].
  destruct (topic_is topic "camera_request" && strict_eq_str ty "request_camera");
    [right; right; left; reflexivity|].
  destruct (topic_is topic "recipe"); [right; right; right; left; eauto|].
  destruct (topic_is topic "suggestions" && strict_eq_str ty "dish_suggestions");
    [right; right; right; right; left; eauto|].
  destruct (topic_is topic "grocery_list"); [|left; reflexivity].
  right; right; right; right; right. eauto.
Qed.

Lemma on_grocery_frame (msg ty : value) (st : UIState) :
  get_property msg "type" = Some ty →
  let st' := (on_grocery msg st).1 in
  ui_timers st' = ui_timers st ∧
  cameraRequest st' = cameraRequest st ∧
  recipe st' = recipe st ∧
  dishSuggestions st' = dishSuggestions st ∧
  (groceryListOpen st = true → groceryListOpen st' = true).
Proof.
  intros Hty. cbn zeta. rewrite (on_grocery_run _ _ _ Hty).
  destruct (one_of ty grocery_types); [|repeat split; intros; assumption].
  destruct (grocery_items msg); cbn; [|repeat split; intros; assumption].
  repeat split. intros ->. destruct (strict_eq_str ty "grocery_list_show"); reflexivity.
Qed.

(** X7: whatever the payload and the topic, a data message never removes
    or reorders a timer and adds at most one, never lowers the id counter,
    never withdraws a pending camera request and never closes an open
    grocery list. *)
Theorem handleData_never_retracts `{Platform} (now : Z) (payload : list Byte.byte)
    (topic : option string) (st : UIState) :
  let st' := handleData now payload topic st in
  timers (ui_timers st) `prefix_of` timers (ui_timers st') ∧
  (length (timers (ui_timers st')) ≤ length (timers (ui_timers st)) + 1)%nat ∧
  nextId (ui_timers st) ≤ nextId (ui_timers st') ∧
  (cameraRequest st = true → cameraRequest st' = true) ∧
  (groceryListOpen st = true → groceryListOpen st' = true).
Proof.
  cbn zeta.
  destruct (handleData_cases now payload topic st)
    as [->|[(l & d & ->)|[->|[(msg & ty & Hty & ->)|[(v & ->)|(msg & ty & Hty & ->)]]]]].
  - repeat split; try reflexivity; try lia; intros; assumption.
  - cbn. rewrite length_app. cbn.
    repeat split; try lia; try (intros; assumption).
    apply prefix_app_r. reflexivity.
  - cbn. repeat split; try reflexivity; try lia; intros; assumption.
  - destruct (on_recipe_frame msg ty st Hty) as (Ht & Hc & _ & Ho & _).
    rewrite Ht, Hc, Ho. repeat split; try reflexivity; try lia; intros; assumption.
  - cbn. repeat split; try reflexivity; try lia; intros; assumption.
  - destruct (on_grocery_frame msg ty st Hty) as (Ht & Hc & _ & _ & Ho).
    rewrite Ht, Hc. repeat split; try reflexivity; try lia; [intros; assumption|exact Ho].
Qed.

Lemma or_idem (a b : value) : or a (or a b) = or a b.
Proof. unfold or. destruct (truthy a); reflexivity. Qed.

Lemma on_recipe_idem (msg ty : value) (st : UIState) :
  get_property msg "type" = Some ty →
  (on_recipe msg (on_recipe msg st).1).1 = (on_recipe msg st).1.
Proof.
  intros Hty. unfold on_recipe. run_block Hty.
  destruct st as [tm cam [r|] sugg gl glo];
    destruct (strict_eq_str ty "recipe_start"); cbn; try reflexivity;
    destruct (strict_eq_str ty "recipe_refresh"); cbn;
      rewrite ?or_idem; try reflexivity;
    destruct (strict_eq_str ty "step_update"); cbn; try reflexivity;
    destruct (strict_eq_str ty "recipe_update"); cbn; try reflexivity;
    destruct (strict_eq_str ty "recipe_end"); cbn; reflexivity.
Qed.

Lemma on_grocery_idem (msg ty : value) (st : UIState) :
  get_property msg "type" = Some ty →
  (on_grocery msg (on_grocery msg st).1).1 = (on_grocery msg st).1.
Proof.
  intros Hty. rewrite !(on_grocery_run _ _ _ Hty).
  destruct (one_of ty grocery_types); [|reflexivity].
  destruct (grocery_items msg); cbn; [|reflexivity].
  destruct (strict_eq_str ty "grocery_list_show"); reflexivity.
Qed.

(** X8: on every topic other than [timer], a message delivered twice
    leaves the state it left the first time: the listener is idempotent on
    camera, recipe, suggestion and grocery messages, on unknown topics and
    on payloads it ignores. *)
Theorem handleData_idempotent_off_timer `{Platform} (now now' : Z)
    (payload : list Byte.byte) (topic : option string) (st : UIState) :
  topic ≠ Some "timer" →
  handleData now' payload topic (handleData now payload topic st) =
    handleData now payload topic st.
Proof.
  intros Htopic.
  assert (Ht : topic_is topic "timer" = false).
  { apply bool_decide_eq_false. exact Htopic. }
  destruct (JSON_parse (TextDecoder_decode payload)) as [msg|] eqn:Hp;
    [|rewrite !(handleData_unparsed _ _ _ _ Hp); reflexivity].
  rewrite !(handleData_parsed _ _ _ _ _ Hp).
  destruct (get_property msg "type") as [ty|] eqn:Hty;
    [|rewrite !(on_message_null _ _ _ _ Hty); reflexivity].
  rewrite !(on_message_run _ _ _ _ _ Hty), Ht. cbn [andb].
  destruct (topic_is topic "camera_request" && strict_eq_str ty "request_camera");
    [reflexivity|].
  destruct (topic_is topic "recipe"); [apply (on_recipe_idem _ _ _ Hty)|].
  destruct (topic_is topic "suggestions" && strict_eq_str ty "dish_suggestions");
    [reflexivity|].
  destruct (topic_is topic "grocery_list"); [apply (on_grocery_idem _ _ _ Hty)|].
  reflexivity.
Qed.

(** ** The timers across the whole component *)

Lemma UI_step_timers_invariant `{Platform} (st st' : UIState) :
  UI_step st st' →
  distinct_ids (ui_timers st) ∧ ids_below_counter (ui_timers st) →
  distinct_ids (ui_timers st') ∧ ids_below_counter (ui_timers st').
Proof.
  intros Hstep Hinv. inversion Hstep; subst; cbn; try exact Hinv.
  - destruct (handleData_cases now payload topic st)
      as [->|[(l & d & ->)|[->|[(msg & ty & Hty & ->)|[(v & ->)|(msg & ty & Hty & ->)]]]]];
      cbn; try exact Hinv.
    + eapply Timers_step_invariant; [apply step_add|exact Hinv].
    + destruct (on_recipe_frame msg ty st Hty) as (-> & _). exact Hinv.
    + destruct (on_grocery_frame msg ty st Hty) as (-> & _). exact Hinv.
  - eapply Timers_step_invariant; [apply step_dismiss|exact Hinv].
  - eapply Timers_step_invariant; [apply (step_expiry now)|exact Hinv].
Qed.

(** X9: in every state the component reaches from its initial state, by
    data messages, timer dismissals, expiry checks, grocery toggles, dish
    selection, closing the recipe, answering the camera prompt and opening
    or closing the grocery list, the listed timers have pairwise distinct
    ids, all below the counter: the keys of [TimerDisplay] are unique. *)
Theorem UI_reachable_distinct_timer_ids `{Platform} (st : UIState) :
  UI_reachable st →
  distinct_ids (ui_timers st) ∧ ids_below_counter (ui_timers st).
Proof.
  unfold UI_reachable. revert st.
  apply (rtc_ind_r (λ st, distinct_ids (ui_timers st) ∧ ids_below_counter (ui_timers st))).
  - split; [apply NoDup_nil; exact I|]. intros t Ht. cbn in Ht. inversion Ht.
  - intros st1 st2 _ Hstep IH. eapply UI_step_timers_invariant; eassumption.
Qed.

(** ** Updates of a displayed recipe *)

(** X10: on a displayed recipe, [recipe_refresh] keeps the servings, the
    preparation time, the current step and the tutorial fields; the title,
    the ingredients and the steps are replaced only by a truthy field of the
    message and kept otherwise.  Nothing else in the state changes. *)
Theorem recipe_refresh_merges `{Platform} (now : Z) (payload : list Byte.byte)
    (st : UIState) (msg : value) (r : Recipe) :
  JSON_parse (TextDecoder_decode payload) = Some msg →
  get_property msg "type" = Some (VStr "recipe_refresh") →
  recipe st = Some r →
  ∃ r',
    handleData now payload (Some "recipe") st =
      {| ui_timers := ui_timers st;
         cameraRequest := cameraRequest st;
         recipe := Some r';
         dishSuggestions := dishSuggestions st;
         groceryList := groceryList st;
         groceryListOpen := groceryListOpen st |} ∧
    title r' = or (read msg "title") (title r) ∧
    ingredients r' = or (read msg "ingredients") (ingredients r) ∧
    steps r' = or (read msg "steps") (steps r) ∧
    (truthy (read msg "title") = false → title r' = title r) ∧
    (truthy (read msg "ingredients") = false → ingredients r' = ingredients r) ∧
    (truthy (read msg "steps") = false → steps r' = steps r) ∧
    servings r' = servings r ∧ prepTimeMinutes r' = prepTimeMinutes r ∧
    currentStep r' = currentStep r ∧
    tutorialUrl r' = tutorialUrl r ∧ tutorialTitle r' = tutorialTitle r ∧
    tutorialSource r' = tutorialSource r ∧
    ogImage r' = ogImage r ∧ ogTitle r' = ogTitle r ∧
    ogDescription r' = ogDescription r.
Proof.
  intros Hp Hty Hr. rewrite (handleData_parsed _ _ _ _ _ Hp).
  rewrite (on_message_run _ _ _ _ _ Hty). eval_topic.
  unfold on_recipe. run_block Hty.
  rewrite bool_decide_false by discriminate.
  rewrite bool_decide_true by reflexivity. cbn. rewrite Hr.
  eexists. split; [reflexivity|]. cbn.
  repeat split; intros Hf; apply or_falsy; exact Hf.
Qed.

(** X11: on a displayed recipe, [recipe_update] overwrites the six tutorial
    fields with those of the message, so a field the message does not carry
    is cleared, and keeps the title, the servings, the preparation time, the
    ingredients, the steps and the current step. *)
Theorem recipe_update_overwrites_tutorial `{Platform} (now : Z)
    (payload : list Byte.byte) (st : UIState) (msg : value) (r : Recipe) :
  JSON_parse (TextDecoder_decode payload) = Some msg →
  get_property msg "type" = Some (VStr "recipe_update") →
  recipe st = Some r →
  handleData now payload (Some "recipe") st =
    {| ui_timers := ui_timers st;
       cameraRequest := cameraRequest st;
       recipe := Some
         {| title := title r;
            servings := servings r;
            prepTimeMinutes := prepTimeMinutes r;
            ingredients := ingredients r;
            steps := steps r;
            currentStep := currentStep r;
            tutorialUrl := read msg "tutorial_url";
            tutorialTitle := read msg "tutorial_title";
            tutorialSource := read msg "tutorial_source";
            ogImage := read msg "og_image";
            ogTitle := read msg "og_title";
            ogDescription := read msg "og_description" |};
       dishSuggestions := dishSuggestions st;
       groceryList := groceryList st;
       groceryListOpen := groceryListOpen st |} ∧
  (∀ props, msg = VObj props → last_definition props "og_image" = None →
     ogImage <$> recipe (handleData now payload (Some "recipe") st) = Some VUndefined).
Proof.
  intros Hp Hty Hr.
  assert (Heq : handleData now payload (Some "recipe") st =
    {| ui_timers := ui_timers st;
       cameraRequest := cameraRequest st;
       recipe := Some
         {| title := title r;
            servings := servings r;
            prepTimeMinutes := prepTimeMinutes r;
            ingredients := ingredients r;
            steps := steps r;
            currentStep := currentStep r;
            tutorialUrl := read msg "tutorial_url";
            tutorialTitle := read msg "tutorial_title";
            tutorialSource := read msg "tutorial_source";
            ogImage := read msg "og_image";
            ogTitle := read msg "og_title";
            ogDescription := read msg "og_description" |};
       dishSuggestions := dishSuggestions st;
       groceryList := groceryList st;
       groceryListOpen := groceryListOpen st |}).
  { rewrite (handleData_parsed _ _ _ _ _ Hp).
    rewrite (on_message_run _ _ _ _ _ Hty). eval_topic.
    unfold on_recipe. run_block Hty.
    rewrite !bool_decide_false by discriminate.
    rewrite bool_decide_true by reflexivity. cbn. rewrite Hr. reflexivity. }
  split; [exact Heq|].
  intros props -> Hnone. rewrite Heq. cbn. unfold read, own_property. cbn.
  rewrite Hnone. reflexivity.
Qed.

(** ** The marks of the steps *)

Lemma step_mark_number `{Platform} (c k : Z) :
  1 ≤ c →
  step_mark (VNum (Fin c)) k =
    if decide (k < c) then Past else if decide (k = c) then Current else Upcoming.
Proof.
  intros Hc. unfold step_mark, isCurrent, isPast. cbn.
  rewrite (bool_decide_false (c = 0)) by lia. cbn.
  destruct (decide (k < c)) as [Hlt|Hge].
  - rewrite bool_decide_false by lia. rewrite bool_decide_true by lia. reflexivity.
  - destruct (decide (k = c)) as [->|Hne].
    + rewrite bool_decide_true by reflexivity. reflexivity.
    + rewrite bool_decide_false by congruence. rewrite bool_decide_false by lia.
      reflexivity.
Qed.

(** X12: on a displayed recipe, a [step_update] whose [step_number] is the
    integer [n >= 1] changes the current step only; the card then marks the
    steps before [n] as past, step [n] as current and the later ones as
    upcoming, and its effect expands it on the steps tab. *)
Theorem step_update_marks_steps `{Platform} (now n : Z) (payload : list Byte.byte)
    (st : UIState) (msg : value) (r : Recipe) :
  JSON_parse (TextDecoder_decode payload) = Some msg →
  get_property msg "type" = Some (VStr "step_update") →
  read msg "step_number" = VNum (Fin n) →
  1 ≤ n →
  recipe st = Some r →
  handleData now payload (Some "recipe") st =
    {| ui_timers := ui_timers st;
       cameraRequest := cameraRequest st;
       recipe := Some
         {| title := title r;
            servings := servings r;
            prepTimeMinutes := prepTimeMinutes r;
            ingredients := ingredients r;
            steps := steps r;
            currentStep := VNum (Fin n);
            tutorialUrl := tutorialUrl r;
            tutorialTitle := tutorialTitle r;
            tutorialSource := tutorialSource r;
            ogImage := ogImage r;
            ogTitle := ogTitle r;
            ogDescription := ogDescription r |};
       dishSuggestions := dishSuggestions st;
       groceryList := groceryList st;
       groceryListOpen := groceryListOpen st |} ∧
  (∀ (step_texts : list value) (i : nat),
     step_marks (VNum (Fin n)) step_texts !! i =
       (λ _, if decide (Z.of_nat i + 1 < n) then Past
             else if decide (Z.of_nat i + 1 = n) then Current
             else Upcoming) <$> step_texts !! i) ∧
  (∀ c, currentStep_effect (VNum (Fin n)) c =
          {| expanded := true; activeTab := Tab_steps |}).
Proof.
  intros Hp Hty Hn Hge Hr. split; [|split].
  - rewrite (handleData_parsed _ _ _ _ _ Hp).
    rewrite (on_message_run _ _ _ _ _ Hty). eval_topic.
    unfold on_recipe. run_block Hty.
    rewrite !bool_decide_false by discriminate.
    rewrite bool_decide_true by reflexivity. cbn. rewrite Hr, Hn. reflexivity.
  - intros step_texts i. unfold step_marks. rewrite list_lookup_imap.
    destruct (step_texts !! i); cbn; [|reflexivity].
    rewrite step_mark_number by exact Hge. reflexivity.
  - intros c. unfold currentStep_effect. cbn.
    rewrite (bool_decide_false (n = 0)) by lia.
    rewrite bool_decide_true by lia. reflexivity.
Qed.

(** X13: whatever value [currentStep] holds, no step is both current and
    past and at most one step number is current; when [currentStep] is
    falsy (absent, [null], [0], [NaN], the empty string) every listed step
    is upcoming and the effect leaves the card as it is. *)
Theorem step_marks_consistent `{Platform} (currentStep : value) :
  (∀ k, isCurrent currentStep k && isPast currentStep k = false) ∧
  (∀ k k', isCurrent currentStep k = true → isCurrent currentStep k' = true → k = k') ∧
  (truthy currentStep = false →
     (∀ k, 1 ≤ k → step_mark currentStep k = Upcoming) ∧
     (∀ step_texts, step_marks currentStep step_texts = (λ _, Upcoming) <$> step_texts) ∧
     (∀ c, currentStep_effect currentStep c = c)).
Proof.
  split; [|split].
  - intros k. unfold isCurrent, isPast.
    destruct currentStep as [| |b|[c|]|s|l|o]; try reflexivity.
    destruct (bool_decide_reflect (c = k)) as [->|]; [|reflexivity].
    cbn. destruct (negb _); [|reflexivity].
    apply bool_decide_eq_false. lia.
  - intros k k'. unfold isCurrent.
    destruct currentStep as [| |b|[c|]|s|l|o]; try discriminate.
    rewrite !bool_decide_eq_true. congruence.
  - intros Hf.
    assert (Hmark : ∀ k, 1 ≤ k → step_mark currentStep k = Upcoming).
    { intros k Hk. unfold step_mark, isPast. rewrite Hf.
      destruct (isCurrent currentStep k) eqn:Hc; [|reflexivity].
      exfalso. unfold isCurrent in Hc.
      destruct currentStep as [| |b|[c|]|s|l|o]; try discriminate.
      apply bool_decide_eq_true in Hc. subst c.
      cbn in Hf. apply negb_false_iff, bool_decide_eq_true in Hf. lia. }
    split; [exact Hmark|]. split.
    + intros step_texts. unfold step_marks.
      apply list_eq. intros i. rewrite list_lookup_imap, list_lookup_fmap.
      destruct (step_texts !! i); cbn; [rewrite Hmark by lia|]; reflexivity.
    + intros c. unfold currentStep_effect. rewrite Hf. reflexivity.
Qed.

(** ** Check marks and counters of the grocery list *)

Lemma filter_ne_not_included (checked : list value) (s : string) :
  includes checked s = false →
  List.filter (λ c, strict_ne_str c s) checked = checked.
Proof.
  unfold includes. induction checked as [|c checked IH]; [reflexivity|].
  cbn. intros Hex. apply orb_false_iff in Hex as [Hc Hex].
  unfold strict_ne_str at 1. rewrite Hc. cbn. f_equal. apply IH, Hex.
Qed.

Lemma GroceryItem_eta (g : GroceryItem) (checked : list value) :
  g_checked g = VArr checked →
  {| g_recipe := g_recipe g; g_ingredients := g_ingredients g;
     g_checked := VArr checked |} = g.
Proof. destruct g. cbn. intros ->. reflexivity. Qed.

(** An element that [includes] finds is the string itself. *)
Lemma strict_eq_str_true (v : value) (s : string) :
  strict_eq_str v s = true ↔ v = VStr s.
Proof.
  destruct v; cbn; try (split; [discriminate|intros [=]]).
  rewrite bool_decide_eq_true. split; [intros ->; reflexivity|intros [= ->]; reflexivity].
Qed.

Lemma includes_elem (checked : list value) (s : string) :
  includes checked s = true ↔ VStr s ∈ checked.
Proof.
  unfold includes. rewrite existsb_exists. split.
  - intros (c & Hin & Hc). apply strict_eq_str_true in Hc. subst c.
    apply list_elem_of_In. exact Hin.
  - intros Hin. exists (VStr s). split; [apply list_elem_of_In; exact Hin|].
    apply strict_eq_str_refl.
Qed.

(** With distinct check marks, unchecking moves one mark out. *)
Lemma filter_ne_NoDup (checked : list value) (s : string) :
  NoDup checked → includes checked s = true →
  checked ≡ₚ VStr s :: List.filter (λ c, strict_ne_str c s) checked.
Proof.
  intros Hnd. induction Hnd as [|c checked Hc Hnd IH]; [discriminate|].
  cbn. unfold strict_ne_str at 1.
  destruct (strict_eq_str c s) eqn:E; cbn.
  - intros _. apply strict_eq_str_true in E. subst c.
    rewrite filter_ne_not_included; [reflexivity|].
    destruct (includes checked s) eqn:Hin; [|reflexivity].
    exfalso. apply Hc. apply includes_elem. exact Hin.
  - intros Hin. unfold includes in IH. rewrite (IH Hin) at 1. apply Permutation_swap.
Qed.

(** X14: toggling an ingredient that is not checked and toggling it again
    gives back the very list one started from; when it is checked and the
    check marks are distinct, the two toggles give the same marks back in a
    possibly different order. *)
Theorem toggleGroceryItem_twice (prev : list GroceryItem) (i : nat)
    (ingredient : string) (g : GroceryItem) (checked : list value) :
  prev !! i = Some g → g_checked g = VArr checked →
  ∃ once twice,
    toggleGroceryItem i ingredient prev = Some once ∧
    toggleGroceryItem i ingredient once = Some twice ∧
    (includes checked ingredient = false → twice = prev) ∧
    (includes checked ingredient = true → NoDup checked →
     ∃ checked2,
       twice = <[i := {| g_recipe := g_recipe g;
                         g_ingredients := g_ingredients g;
                         g_checked := VArr checked2 |}]> prev ∧
       checked2 ≡ₚ checked).
Proof.
  intros Hi Hc.
  assert (Hlt : (i < length prev)%nat) by (eapply lookup_lt_Some; exact Hi).
  unfold toggleGroceryItem at 1. rewrite Hi, Hc.
  eexists. eexists. split; [reflexivity|].
  unfold toggleGroceryItem. rewrite list_lookup_insert_eq by exact Hlt. cbn.
  rewrite list_insert_insert_eq.
  split; [reflexivity|].
  destruct (includes checked ingredient) eqn:Hinc.
  - split; [discriminate|]. intros _ Hnd.
    rewrite includes_filter_same.
    eexists. split; [reflexivity|].
    rewrite (filter_ne_NoDup checked ingredient Hnd Hinc) at 2.
    rewrite <- Permutation_cons_append. reflexivity.
  - split; [|discriminate]. intros _.
    rewrite includes_app, Hinc, includes_singleton.
    rewrite bool_decide_true by reflexivity. cbn.
    rewrite List.filter_app, filter_ne_not_included by exact Hinc. cbn.
    unfold strict_ne_str. rewrite strict_eq_str_refl. cbn. rewrite app_nil_r.
    rewrite GroceryItem_eta by exact Hc. apply list_insert_id. exact Hi.
Qed.

(** The counter of the header, group by group. *)
Lemma total_lengths_from (field : GroceryItem → value) (items : list GroceryItem)
    (acc : option Z) :
  foldl (λ sum g, s ← sum; n ← length_of (field g); Some (s + n)) acc items =
    a ← acc; t ← total_lengths field items; Some (a + t).
Proof.
  unfold total_lengths. revert acc.
  induction items as [|g items IH]; intros acc.
  - cbn. destruct acc as [a|]; cbn; [f_equal; lia|reflexivity].
  - cbn [foldl]. rewrite IH. rewrite (IH (_ ≫= _)).
    destruct acc as [a|]; cbn; [|reflexivity].
    destruct (length_of (field g)) as [n|]; cbn; [|reflexivity].
    destruct (foldl _ (Some 0) items) as [t|]; cbn; [f_equal; lia|reflexivity].
Qed.

Lemma total_lengths_cons (field : GroceryItem → value) (g : GroceryItem)
    (items : list GroceryItem) :
  total_lengths field (g :: items) =
    n ← length_of (field g); t ← total_lengths field items; Some (n + t).
Proof.
  unfold total_lengths at 1. cbn [foldl]. rewrite total_lengths_from. cbn.
  destruct (length_of (field g)) as [n|]; reflexivity.
Qed.






Lemma NoDup_List_filter (f : value → bool) (l : list value) :
  NoDup l → NoDup (List.filter f l).
Proof.
  induction 1 as [|c l Hc Hnd IH]; [apply NoDup_nil; exact I|].
  cbn. destruct (f c); [|exact IH].
  apply NoDup_cons. split; [|exact IH].
  intros Hin. apply Hc. apply list_elem_of_In in Hin.
  apply filter_In in Hin as [Hin _]. apply list_elem_of_In. exact Hin.
Qed.

Lemma well_checked_lengths (g : GroceryItem) :
  well_checked g →
  ∃ a b, length_of (g_checked g) = Some a ∧ length_of (g_ingredients g) = Some b ∧
         0 ≤ a ≤ b.
Proof.
  intros (ings & checked & Hi & Hc & Hnd & Hsub). rewrite Hi, Hc. cbn.
  eexists. eexists. split; [reflexivity|]. split; [reflexivity|].
  pose proof (submseteq_length _ _ (NoDup_submseteq _ _ Hnd Hsub)). lia.
Qed.

Lemma well_checked_counters (items : list GroceryItem) :
  Forall well_checked items →
  ∃ a b, totalChecked items = Some a ∧ totalIngredients items = Some b ∧ 0 ≤ a ≤ b.
Proof.
  unfold totalChecked, totalIngredients.
  induction 1 as [|g items Hg _ (a & b & Ha & Hb & Hab)].
  - exists 0, 0. repeat split; lia.
  - destruct (well_checked_lengths g Hg) as (a' & b' & Ha' & Hb' & Hab').
    exists (a' + a), (b' + b). rewrite !total_lengths_cons, Ha, Hb, Ha', Hb'. cbn.
    repeat split; lia.
Qed.

(** X16: when every group's check marks are distinct ingredients of the
    group, toggling an ingredient of a group keeps it so, and the header's
    checked counter stays between zero and its ingredient counter. *)
Theorem toggleGroceryItem_counter_bounded (prev : list GroceryItem) (i : nat)
    (ingredient : string) (g : GroceryItem) (ings : list value) :
  Forall well_checked prev →
  prev !! i = Some g → g_ingredients g = VArr ings → VStr ingredient ∈ ings →
  ∃ once a b,
    toggleGroceryItem i ingredient prev = Some once ∧
    Forall well_checked once ∧
    totalChecked once = Some a ∧ totalIngredients once = Some b ∧ 0 ≤ a ≤ b.
Proof.
  intros Hall Hi Hings Hin.
  assert (Hg : well_checked g).
  { rewrite Forall_forall in Hall. apply Hall. eapply list_elem_of_lookup_2. exact Hi. }
  destruct Hg as (ings' & checked & Hi' & Hc & Hnd & Hsub).
  rewrite Hings in Hi'. injection Hi' as <-.
  unfold toggleGroceryItem. rewrite Hi, Hc.
  assert (Hwell : Forall well_checked
            (<[i := {| g_recipe := g_recipe g; g_ingredients := g_ingredients g;
                       g_checked := VArr
                         (if includes checked ingredient
                          then List.filter (λ c, strict_ne_str c ingredient) checked
                          else checked ++ [VStr ingredient]) |}]> prev)).
  { apply Forall_insert; [exact Hall|].
    exists ings. eexists. split; [exact Hings|]. split; [reflexivity|].
    destruct (includes checked ingredient) eqn:Hinc.
    - split; [apply NoDup_List_filter; exact Hnd|].
      intros c Hc'. apply Hsub. apply list_elem_of_In in Hc'.
      apply filter_In in Hc' as [Hc' _]. apply list_elem_of_In. exact Hc'.
    - split.
      + apply NoDup_app. split; [exact Hnd|]. split; [|apply NoDup_singleton].
        intros c Hc' Heq. apply list_elem_of_singleton in Heq. subst c.
        apply includes_elem in Hc'. congruence.
      + intros c Hc'. apply elem_of_app in Hc' as [Hc'|Hc']; [apply Hsub, Hc'|].
        apply list_elem_of_singleton in Hc'. subst c. exact Hin. }
  destruct (well_checked_counters _ Hwell) as (a & b & Ha & Hb & Hab).
  eexists. exists a, b. split; [reflexivity|]. repeat split; assumption || lia.
Qed.

(** ** The token route and the start page *)

Lemma GET_when_missing `{Platform} (env : TokenRoute.Env) (now : Z) (rnd36 : string) :
  missing_or_empty (TokenRoute.LIVEKIT_API_KEY env)
  ∨ missing_or_empty (TokenRoute.LIVEKIT_API_SECRET env)
  ∨ missing_or_empty (TokenRoute.LIVEKIT_URL env) →
  TokenRoute.GET env now rnd36 = (credentials_error, None).
Proof.
  intros Hmiss. unfold TokenRoute.GET.
  assert (Htest : TokenRoute.not_set (TokenRoute.LIVEKIT_API_KEY env)
                  || TokenRoute.not_set (TokenRoute.LIVEKIT_API_SECRET env)
                  || TokenRoute.not_set (TokenRoute.LIVEKIT_URL env) = true).
  { rewrite !orb_true_iff, !not_set_true. tauto. }
  cbn zeta. rewrite Htest. reflexivity.
Qed.

(** Every token the route signs is for the room named after the clock. *)
Lemma GET_token_room `{Platform} (env : TokenRoute.Env) (now : Z) (rnd36 : string)
    (tok : AccessToken) :
  (TokenRoute.GET env now rnd36).2 = Some tok →
  TokenRoute.GET env now rnd36 =
    ({| TokenRoute.body :=
          [("token", toJwt tok);
           ("url", TokenRoute.narrowed (TokenRoute.LIVEKIT_URL env))];
        TokenRoute.status := 200 |}, Some tok) ∧
  room <$> at_grants tok = ["chef-claude-" +:+ Number_toString (Fin now)].
Proof.
  unfold TokenRoute.GET. cbn zeta.
  destruct (_ || _ || _); cbn; [discriminate|].
  intros [= <-]. split; reflexivity.
Qed.

(** X17: two tokens signed by the route are for the same room exactly when
    the two requests read the same clock value: requests served at
    different milliseconds get different rooms, and requests served in the
    same millisecond share one, whatever the environment and the random
    identity. *)
Theorem GET_room_per_millisecond `{Platform} (env env' : TokenRoute.Env)
    (now now' : Z) (rnd36 rnd36' : string) (tok tok' : AccessToken) :
  (TokenRoute.GET env now rnd36).2 = Some tok →
  (TokenRoute.GET env' now' rnd36').2 = Some tok' →
  (room <$> at_grants tok = room <$> at_grants tok' ↔ now = now').
Proof.
  intros Ht Ht'.
  destruct (GET_token_room _ _ _ _ Ht) as [_ ->].
  destruct (GET_token_room _ _ _ _ Ht') as [_ ->].
  split.
  - intros [= Heq]. apply Number_toString_inj. exact Heq.
  - intros ->. reflexivity.
Qed.

(** X18: [connect] stores whatever body the route answered, without
    looking at the status, and [Home] then always leaves the start screen:
    with a missing credential the room is mounted with an undefined token
    and server URL (the error text is never shown); otherwise with the
    signed token and the configured URL. *)
Theorem connect_ignores_status `{Platform} (env : TokenRoute.Env) (now : Z)
    (rnd36 : string) :
  Home.render (Home.connect (TokenRoute.GET env now rnd36).1) ≠ Home.StartCooking ∧
  (missing_or_empty (TokenRoute.LIVEKIT_API_KEY env)
   ∨ missing_or_empty (TokenRoute.LIVEKIT_API_SECRET env)
   ∨ missing_or_empty (TokenRoute.LIVEKIT_URL env) →
   Home.render (Home.connect (TokenRoute.GET env now rnd36).1)
     = Home.LiveKitRoom VUndefined VUndefined) ∧
  (∀ tok, (TokenRoute.GET env now rnd36).2 = Some tok →
     Home.render (Home.connect (TokenRoute.GET env now rnd36).1)
       = Home.LiveKitRoom (VStr (toJwt tok))
           (VStr (TokenRoute.narrowed (TokenRoute.LIVEKIT_URL env)))).
Proof.
  split; [|split].
  - unfold TokenRoute.GET. cbn zeta. destruct (_ || _ || _); cbn; discriminate.
  - intros Hmiss. rewrite (GET_when_missing _ _ _ Hmiss). reflexivity.
  - intros tok Htok. destruct (GET_token_room _ _ _ _ Htok) as [-> _]. reflexivity.
Qed.

(** ** Alarms ring once; timers and the other topics do not interfere *)

Lemma expired_after_check (now : Z) (s : Timers) :
  expired now (timers (expiryCheck now s).2) = [].
Proof.
  destruct (decide (expired now (timers s) = [])) as [He|He].
  - rewrite expiryCheck_none by exact He. exact He.
  - rewrite expiryCheck_some by exact He. cbn. unfold expired.
    apply list_eq. intros i. cbn.
    destruct (filter _ (filter _ (timers s)) !! i) as [t|] eqn:Hl; [|reflexivity].
    exfalso. apply list_elem_of_lookup_2 in Hl.
    apply list_elem_of_filter in Hl as [Hle Hl].
    apply list_elem_of_filter in Hl as [Hgt _].
    eapply num_le_gt_exclusive; eassumption.
Qed.

(** X19: an alarm is played once.  A timer that a check counts as expired
    is gone from the list afterwards, so no later check, at whatever time,
    counts it again; and running the check again at the same time plays no
    alarm and changes nothing. *)
Theorem expiryCheck_alarm_once (now : Z) (s : Timers) :
  (∀ t later, t ∈ expired now (timers s) →
     t ∉ expired later (timers (expiryCheck now s).2)) ∧
  expiryCheck now (expiryCheck now s).2 = ([], (expiryCheck now s).2).
Proof.
  split.
  - intros t later Ht Hin.
    apply list_elem_of_filter in Ht as [Hle Ht].
    apply list_elem_of_filter in Hin as [_ Hin].
    assert (He : expired now (timers s) ≠ []).
    { intros He. eapply filter_nil_not_elem_of; [exact He| |exact Ht]. exact Hle. }
    rewrite expiryCheck_some in Hin by exact He. cbn in Hin.
    apply list_elem_of_filter in Hin as [Hgt _].
    eapply num_le_gt_exclusive; eassumption.
  - apply expiryCheck_none. apply expired_after_check.
Qed.

Lemma on_recipe_setTimers (msg ty : value) (f : Timers → Timers) (st : UIState) :
  get_property msg "type" = Some ty →
  (on_recipe msg (setTimers f st).1).1 = (setTimers f (on_recipe msg st).1).1.
Proof.
  intros Hty. unfold on_recipe. run_block Hty.
  destruct (strict_eq_str ty "recipe_start"); cbn; [reflexivity|].
  destruct (strict_eq_str ty "recipe_refresh"); cbn; [reflexivity|].
  destruct (strict_eq_str ty "step_update"); cbn; [reflexivity|].
  destruct (strict_eq_str ty "recipe_update"); cbn; [reflexivity|].
  destruct (strict_eq_str ty "recipe_end"); cbn; reflexivity.
Qed.

Lemma on_grocery_setTimers (msg ty : value) (f : Timers → Timers) (st : UIState) :
  get_property msg "type" = Some ty →
  (on_grocery msg (setTimers f st).1).1 = (setTimers f (on_grocery msg st).1).1.
Proof.
  intros Hty. rewrite !(on_grocery_run _ _ _ Hty).
  destruct (one_of ty grocery_types); [|reflexivity].
  destruct (grocery_items msg); reflexivity.
Qed.

(** X20: a message on a topic other than [timer] and an update of the
    timers (a timer added by a [set_timer] message, a dismissal, an expiry
    check) can be applied in either order: the resulting state is the
    same. *)
Theorem handleData_commutes_with_timers `{Platform} (now : Z)
    (payload : list Byte.byte) (topic : option string) (f : Timers → Timers)
    (st : UIState) :
  topic ≠ Some "timer" →
  handleData now payload topic (setTimers f st).1 =
    (setTimers f (handleData now payload topic st)).1.
Proof.
  intros Htopic.
  assert (Ht : topic_is topic "timer" = false).
  { apply bool_decide_eq_false. exact Htopic. }
  destruct (JSON_parse (TextDecoder_decode payload)) as [msg|] eqn:Hp;
    [|rewrite !(handleData_unparsed _ _ _ _ Hp); reflexivity].
  rewrite !(handleData_parsed _ _ _ _ _ Hp).
  destruct (get_property msg "type") as [ty|] eqn:Hty;
    [|rewrite !(on_message_null _ _ _ _ Hty); reflexivity].
  rewrite !(on_message_run _ _ _ _ _ Hty), Ht. cbn [andb].
  destruct (topic_is topic "camera_request" && strict_eq_str ty "request_camera");
    [reflexivity|].
  destruct (topic_is topic "recipe"); [apply (on_recipe_setTimers _ _ _ _ Hty)|].
  destruct (topic_is topic "suggestions" && strict_eq_str ty "dish_suggestions");
    [reflexivity|].
  destruct (topic_is topic "grocery_list"); [apply (on_grocery_setTimers _ _ _ _ Hty)|].
  reflexivity.
Qed.

(** ** Runs of the further properties *)

Lemma two_timers_below_counter : ids_below_counter two_timers.
Proof.
  intros t Ht. cbn in Ht.
  repeat (apply elem_of_cons in Ht as [->|Ht]; [cbn; lia|]).
  inversion Ht.
Defined.

Lemma two_timers_distinct : distinct_ids two_timers.
Proof.
  unfold distinct_ids. cbn.
  apply NoDup_cons. split.
  - intros Hin. apply list_elem_of_singleton in Hin. discriminate Hin.
  - apply NoDup_singleton.
Defined.

(** X3, witness. *)
Lemma addTimer_dismissTimer_roundtrip_witness :
  dismissTimer 2 (@addTimer reference_platform 1000 (VStr "tea") (VNum (Fin 5)) two_timers)
  = {| timers := [timer_eggs; timer_rice]; nextId := 3 |}.
Proof.
  exact (@addTimer_dismissTimer_roundtrip reference_platform 1000 (VStr "tea")
           (VNum (Fin 5)) two_timers two_timers_below_counter).
Defined.

(** X4, witness. *)
Lemma dismissTimer_removes_one_witness :
  (length (timers (dismissTimer 0 two_timers)) + 1 = 2)%nat ∧
  (timer_eggs ∉ timers (dismissTimer 0 two_timers)).
Proof.
  destruct (dismissTimer_removes_one two_timers timer_eggs two_timers_distinct
              ltac:(left)) as (Hlen & Hout & _).
  split; [exact Hlen|exact Hout].
Defined.

(** X5, witness: the timer without a deadline goes when the eggs expire. *)
Lemma expiryCheck_NaN_timer_witness :
  (timer_rice ∉ expired 5000 (timers two_timers)) ∧
  (timer_rice ∉ timers (expiryCheck 5000 two_timers).2).
Proof.
  destruct (expiryCheck_NaN_timer 5000 two_timers timer_rice
              ltac:(right; left) eq_refl) as (Hnot & _ & Hgone).
  split; [exact Hnot|]. apply Hgone. vm_compute. discriminate.
Defined.


(** X8, witness: a [step_update] delivered twice. *)
Lemma handleData_idempotent_off_timer_witness :
  @handleData reference_platform 2000 (payload_of step_two) (Some "recipe")
    (@handleData reference_platform 1000 (payload_of step_two) (Some "recipe") cooking)
  = @handleData reference_platform 1000 (payload_of step_two) (Some "recipe") cooking.
Proof.
  apply (@handleData_idempotent_off_timer reference_platform). discriminate.
Defined.

(** X9, witness: the state after one [set_timer] message. *)
Lemma UI_reachable_distinct_timer_ids_witness :
  distinct_ids (ui_timers (@handleData reference_platform 1000 (payload_of set_eggs)
                             (Some "timer") UIState_init)).
Proof.
  apply (@UI_reachable_distinct_timer_ids reference_platform).
  apply rtc_once. apply (@ui_data reference_platform).
Defined.

(** X10, witness: a refresh that only renames the recipe. *)
Lemma recipe_refresh_merges_witness :
  ∃ r',
    recipe (@handleData reference_platform 1000 (payload_of refresh_title)
              (Some "recipe") cooking) = Some r' ∧
    title r' = VStr "Leek soup" ∧
    steps r' = VArr [VStr "chop"; VStr "boil"; VStr "serve"] ∧
    currentStep r' = VNum (Fin 1).
Proof.
  destruct (@recipe_refresh_merges reference_platform 1000 (payload_of refresh_title)
              cooking
              (VObj [("type", VStr "recipe_refresh"); ("title", VStr "Leek soup")])
              soup eq_refl eq_refl eq_refl)
    as (r' & Heq & Ht & _ & _ & _ & _ & Hs & _ & _ & Hc & _).
  exists r'. rewrite Heq. cbn [recipe].
  split; [reflexivity|]. split; [exact Ht|]. split; [apply Hs; reflexivity|exact Hc].
Defined.

(** X11, witness: an update with a new link and no image clears the image. *)
Lemma recipe_update_overwrites_tutorial_witness :
  ogImage <$> recipe (@handleData reference_platform 1000 (payload_of update_tutorial)
                        (Some "recipe") cooking) = Some VUndefined.
Proof.
  apply (proj2 (@recipe_update_overwrites_tutorial reference_platform 1000
                  (payload_of update_tutorial) cooking
                  (VObj [("type", VStr "recipe_update");
                         ("tutorial_url", VStr "https://example.org/leek")])
                  soup eq_refl eq_refl eq_refl)
           [("type", VStr "recipe_update");
            ("tutorial_url", VStr "https://example.org/leek")]);
    reflexivity.
Defined.

(** X12, witness: step 2 of three. *)
Lemma step_update_marks_steps_witness :
  @step_marks reference_platform (VNum (Fin 2)) [VStr "chop"; VStr "boil"; VStr "serve"]
    !! 0%nat = Some Past ∧
  @currentStep_effect reference_platform (VNum (Fin 2))
    {| expanded := false; activeTab := Tab_ingredients |}
  = {| expanded := true; activeTab := Tab_steps |}.
Proof.
  destruct (@step_update_marks_steps reference_platform 1000 2 (payload_of step_two)
              cooking
              (VObj [("type", VStr "step_update"); ("step_number", VNum (Fin 2))])
              soup eq_refl eq_refl eq_refl ltac:(lia) eq_refl)
    as (_ & Hmarks & Heff).
  split; [exact (Hmarks [VStr "chop"; VStr "boil"; VStr "serve"] 0%nat)|apply Heff].
Defined.

Lemma shopping_well_checked : Forall well_checked (groceryList shopping).
Proof.
  apply Forall_cons. split; [|apply Forall_nil; exact I].
  exists [VStr "salt"; VStr "leek"], [VStr "salt"].
  split; [reflexivity|]. split; [reflexivity|]. split; [apply NoDup_singleton|].
  intros c Hc. apply list_elem_of_singleton in Hc. subst c. left.
Defined.

(** X14, witness: checking and unchecking [leek]. *)
Lemma toggleGroceryItem_twice_witness :
  ∃ once,
    toggleGroceryItem 0 "leek" (groceryList shopping) = Some once ∧
    toggleGroceryItem 0 "leek" once = Some (groceryList shopping).
Proof.
  destruct (toggleGroceryItem_twice (groceryList shopping) 0 "leek"
              {| g_recipe := VStr "Soup";
                 g_ingredients := VArr [VStr "salt"; VStr "leek"];
                 g_checked := VArr [VStr "salt"] |}
              [VStr "salt"] eq_refl eq_refl)
    as (once & twice & H1 & H2 & Hback & _).
  exists once. split; [exact H1|]. rewrite H2. f_equal. apply Hback. reflexivity.
Defined.


(** X16, witness. *)
Lemma toggleGroceryItem_counter_bounded_witness :
  ∃ once a b,
    toggleGroceryItem 0 "leek" (groceryList shopping) = Some once ∧
    Forall well_checked once ∧
    totalChecked once = Some a ∧ totalIngredients once = Some b ∧ 0 ≤ a ≤ b.
Proof.
  exact (toggleGroceryItem_counter_bounded (groceryList shopping) 0 "leek"
           {| g_recipe := VStr "Soup";
              g_ingredients := VArr [VStr "salt"; VStr "leek"];
              g_checked := VArr [VStr "salt"] |}
           [VStr "salt"; VStr "leek"] shopping_well_checked eq_refl eq_refl
           ltac:(right; left)).
Defined.

(** X17, witness: two requests one millisecond apart. *)
Lemma GET_room_per_millisecond_witness :
  ∃ tok tok',
    (@TokenRoute.GET reference_platform kitchen_env 1700000000000 "0.4fzyo82mvyr").2
      = Some tok ∧
    (@TokenRoute.GET reference_platform kitchen_env 1700000000001 "0.9k2m1x8qa").2
      = Some tok' ∧
    (room <$> at_grants tok = room <$> at_grants tok'
     ↔ 1700000000000 = 1700000000001).
Proof.
  eexists. eexists. split; [reflexivity|]. split; [reflexivity|].
  apply (@GET_room_per_millisecond reference_platform kitchen_env kitchen_env
           1700000000000 1700000000001 "0.4fzyo82mvyr" "0.9k2m1x8qa");
    reflexivity.
Defined.

(** X20, witness: a [step_update] and the dismissal of the first timer. *)
Lemma handleData_commutes_with_timers_witness :
  @handleData reference_platform 1000 (payload_of step_two) (Some "recipe")
    (setTimers (dismissTimer 0) cooking).1
  = (setTimers (dismissTimer 0)
       (@handleData reference_platform 1000 (payload_of step_two) (Some "recipe")
          cooking)).1.
Proof.
  apply (@handleData_commutes_with_timers reference_platform). discriminate.
Defined.
